(** * Speech-Command-Recognition: the audio-to-prediction pipeline of
    [gui/visualization.py]

    A shallow embedding of the Streamlit script: the numpy operations it
    relies on (integer-array indexing, [np.newaxis], [flatten], [argmax],
    slicing, [np.pad]), the recording branch that rebuilds a byte stream from
    the recorder's index -> value dictionary, [preprocess], [CNN_predict],
    [create_visualization] and the output branch of the page.

    Python exceptions are values of [exn]; code that can raise returns a
    [result].  Calls into Streamlit are recorded as a log of [st_event]s next
    to the outcome, so that what was already rendered when an exception
    escapes stays visible.  librosa, the Keras model and [np.argpartition]
    are taken as Section variables together with the part of their
    documented contract that a statement needs. *)

From Stdlib Require Import ZArith String Ascii.
From stdpp Require Import base list sorting.

Local Open Scope Z_scope.

(** ** Exceptions and results *)

(** The Python exceptions the script can meet.  [ExternalError] stands for
    whatever a library call (librosa's decoder, the Keras model) raises. *)
Inductive exn : Type :=
| ValueError
| IndexError
| OverflowError
| ExternalError (origin : string).

Inductive result (A : Type) : Type :=
| Ok (a : A)
| Raise (e : exn).

Arguments Ok {A} a.
Arguments Raise {A} e.

Definition rbind {A B : Type} (m : result A) (k : A -> result B) : result B :=
  match m with
  | Ok a => k a
  | Raise e => Raise e
  end.

Notation "'let*' x ':=' m 'in' k" := (rbind m (fun x => k))
  (at level 10, x name, m at level 100, k at level 200).
Notation "'let*' ' p ':=' m 'in' k" := (rbind m (fun x => match x with p => k end))
  (at level 10, p pattern, m at level 100, k at level 200).

Fixpoint mapM_result {A B : Type} (f : A -> result B) (l : list A) : result (list B) :=
  match l with
  | [] => Ok []
  | x :: l' =>
      let* y := f x in
      let* ys := mapM_result f l' in
      Ok (y :: ys)
  end.

(** ** numpy on one-dimensional arrays (lists) *)

(** [a[i]] for an integer [i]: a negative index counts from the end, and an
    index outside [-n, n) raises [IndexError]. *)
Definition np_getitem {A : Type} (a : list A) (i : Z) : result A :=
  let n := Z.of_nat (length a) in
  let j := if i <? 0 then i + n else i in
  if (0 <=? j) && (j <? n) then
    match a !! Z.to_nat j with
    | Some x => Ok x
    | None => Raise IndexError
    end
  else Raise IndexError.

(** [a[ind]] for an integer array [ind]: the array of the [a[ind[i]]]. *)
Definition np_take {A : Type} (a : list A) (ind : list Z) : result (list A) :=
  mapM_result (np_getitem a) ind.

(** [a[-s:]]: the last [s] elements, all of [a] when it has fewer. *)
Definition py_last {A : Type} (s : nat) (a : list A) : list A :=
  drop (length a - s)%nat a.

(** [int(v).to_bytes(1, "big")]: one unsigned byte, [OverflowError] for a
    value outside 0..255. *)
Definition to_bytes1 (v : Z) : result Z :=
  if (0 <=? v) && (v <? 256) then Ok v else Raise OverflowError.

(** ** Sample Reconstructor: the recording branch (lines 148-153) *)

(** [recorded_file['arr']]: the dictionary's items in insertion order, keys
    already read as integers. *)
Definition SparseSampleMap : Type := list (Z * Z).

(** The unpacking of [zip] over the starred items into [ind, val]: with no
    item [zip()] yields nothing and the unpacking of two names raises
    [ValueError]. *)
Definition unzip_items (arr : SparseSampleMap) : result (list Z * list Z) :=
  match arr with
  | [] => Raise ValueError
  | _ :: _ => Ok (map fst arr, map snd arr)
  end.

Definition retrieve_recording (arr : SparseSampleMap) : result (list Z) :=
  let* '(ind, val) := unzip_items arr in
  let* sorted_ints := np_take val ind in
  mapM_result to_bytes1 sorted_ints.

(** The reconstruction the variable name [sorted_ints] announces: the values
    in ascending order of their index.  Used only to compare with
    [retrieve_recording]. *)
Fixpoint insert_by_index (kv : Z * Z) (l : list (Z * Z)) : list (Z * Z) :=
  match l with
  | [] => [kv]
  | kv' :: l' =>
      if fst kv <=? fst kv' then kv :: l else kv' :: insert_by_index kv l'
  end.

Definition values_by_ascending_index (arr : SparseSampleMap) : list Z :=
  map snd (foldr insert_by_index [] arr).

(** Line 149, [np.array(ind, dtype=int)]: every index becomes a signed 64-bit
    integer, and one that does not fit raises [OverflowError]. *)
Definition INT64_BOUND : Z := 9223372036854775808.

Definition np_int64 (k : Z) : result Z :=
  if (- INT64_BOUND <=? k) && (k <? INT64_BOUND) then Ok k else Raise OverflowError.

Definition np_array_int (ind : list Z) : result (list Z) :=
  mapM_result np_int64 ind.

(** Lines 148-153 with the conversion of line 149 in its place, before
    [val[ind]].  On indices that fit in 64 bits it is [retrieve_recording]. *)
Definition recording_branch (arr : SparseSampleMap) : result (list Z) :=
  let* '(ind, val) := unzip_items arr in
  let* ind := np_array_int ind in
  let* sorted_ints := np_take val ind in
  mapM_result to_bytes1 sorted_ints.

(** ** numpy arrays of any rank *)

(** An array is its shape and its elements in row-major (C) order. *)
Record ndarray (A : Type) : Type := mk_ndarray {
  nd_shape : list nat;
  nd_data : list A
}.

Arguments mk_ndarray {A} nd_shape nd_data.
Arguments nd_shape {A} n.
Arguments nd_data {A} n.

Definition nd_size (shape : list nat) : nat := foldr Nat.mul 1%nat shape.

Definition nd_wf {A : Type} (a : ndarray A) : Prop :=
  length (nd_data a) = nd_size (nd_shape a).

(** The row-major offset of a multi-index, [None] when its rank or one of its
    components is out of the shape. *)
Fixpoint ravel_index (shape idx : list nat) : option nat :=
  match shape, idx with
  | [], [] => Some 0%nat
  | d :: shape', i :: idx' =>
      if (i <? d)%nat then
        match ravel_index shape' idx' with
        | Some off => Some (i * nd_size shape' + off)%nat
        | None => None
        end
      else None
  | _, _ => None
  end.

Definition nd_get {A : Type} (a : ndarray A) (idx : list nat) : option A :=
  match ravel_index (nd_shape a) idx with
  | Some off => nd_data a !! off
  | None => None
  end.

(** All multi-indices of a shape, in row-major order. *)
Fixpoint nd_indices (shape : list nat) : list (list nat) :=
  match shape with
  | [] => [[]]
  | d :: shape' => flat_map (fun i => map (cons i) (nd_indices shape')) (seq 0 d)
  end.

(** [a.T]: the axes reversed. *)
Definition nd_T {A : Type} (a : ndarray A) : ndarray A :=
  let shape' := rev (nd_shape a) in
  mk_ndarray shape' (omap (fun idx => nd_get a (rev idx)) (nd_indices shape')).

(** [a[np.newaxis, ..., np.newaxis]]: an axis of length 1 in front and one
    at the end; the elements stay as they are. *)
Definition nd_newaxis_ends {A : Type} (a : ndarray A) : ndarray A :=
  mk_ndarray (1%nat :: nd_shape a ++ [1%nat]) (nd_data a).

(** [a.flatten()]: the one-dimensional array of the elements. *)
Definition nd_flatten {A : Type} (a : ndarray A) : list A := nd_data a.

(** ** Constants of the script *)

Definition SAMPLES_TO_CONSIDER : Z := 22050.

Definition mapping : list string :=
  [ "right"; "eight"; "cat"; "tree"; "backward"; "learn"; "bed"; "happy";
    "go"; "dog"; "no"; "wow"; "follow"; "nine"; "left"; "stop"; "three";
    "sheila"; "one"; "bird"; "zero"; "seven"; "up"; "visual"; "marvin";
    "two"; "house"; "down"; "six"; "yes"; "on"; "five"; "forward"; "off";
    "four" ]%string.

(** librosa's frame count for a signal of [len] samples: with the default
    [center=True] the signal is padded by [n_fft // 2] on both sides and cut
    into windows of [n_fft] samples every [hop_length] samples. *)
Definition stft_frame_count (len n_fft hop_length : Z) : Z :=
  1 + (len + 2 * (n_fft / 2) - n_fft) / hop_length.

(** ** Streamlit calls *)

(** The chart handed to [st.write]: the data frame's rows (keyword,
    confidence) in row order, and the encoding's fields and sort. *)
Record Chart (flt : Type) : Type := mk_Chart {
  chart_data : list (string * flt);
  chart_x : string;
  chart_y : string;
  chart_y_sort : string
}.

Arguments mk_Chart {flt} chart_data chart_x chart_y chart_y_sort.
Arguments chart_data {flt} c.
Arguments chart_x {flt} c.
Arguments chart_y {flt} c.
Arguments chart_y_sort {flt} c.

Inductive st_event (flt : Type) : Type :=
| st_markdown (body : string)
| st_spinner (text : string)
| st_write (chart : Chart flt).

Arguments st_markdown {flt} body.
Arguments st_spinner {flt} text.
Arguments st_write {flt} chart.

(** A run of page code: what it rendered, in order, and how it ended.  An
    exception keeps what was rendered before it. *)
Definition St (flt A : Type) : Type := list (st_event flt) * result A.

Definition st_ret {flt A : Type} (a : A) : St flt A := ([], Ok a).

Definition st_bind {flt A B : Type} (m : St flt A) (k : A -> St flt B) : St flt B :=
  match m with
  | (log, Ok a) => let (log', r) := k a in (log ++ log', r)
  | (log, Raise e) => (log, Raise e)
  end.

Definition st_emit {flt : Type} (ev : st_event flt) : St flt unit := ([ev], Ok tt).

Definition st_lift {flt A : Type} (r : result A) : St flt A := ([], r).

Notation "'let+' x ':=' m 'in' k" := (st_bind m (fun x => k))
  (at level 10, x name, m at level 100, k at level 200).
Notation "'let+' ' p ':=' m 'in' k" := (st_bind m (fun x => match x with p => k end))
  (at level 10, p pattern, m at level 100, k at level 200).

(** The f-string of [create_visualization]; the character 34 is the double
    quote. *)
Definition heard_text (predicted_keyword : string) : string :=
  ("I heard the word " ++ String "034" (predicted_keyword ++ String "034" ""))%string.

(** ** The pipeline *)

Section Pipeline.

(** Floating-point numbers (samples, coefficients, confidences) with their
    zero and their comparison [<]. *)
Context {flt : Type}.
Variable zero : flt.
Variable flt_ltb : flt -> flt -> bool.

(** [librosa.load(io.BytesIO(bytes))]: the decoded mono signal and its
    sample rate, or the decoder's exception. *)
Variable librosa_load : list Z -> result (list flt * Z).

(** [librosa.feature.mfcc(signal, sample_rate, n_mfcc, n_fft, hop_length)]. *)
Variable librosa_mfcc : list flt -> Z -> Z -> Z -> Z -> ndarray flt.

(** [model.predict] of the network loaded at start-up. *)
Variable model_predict : ndarray flt -> result (ndarray flt).

(** [np.argpartition(a, kth)]. *)
Variable np_argpartition : list flt -> Z -> result (list Z).

(** Lines 76-80: the signal cut or zero-padded to [SAMPLES_TO_CONSIDER]. *)
Definition fix_signal_length (signal : list flt) : list flt :=
  if Z.of_nat (length signal) >=? SAMPLES_TO_CONSIDER then
    take (Z.to_nat SAMPLES_TO_CONSIDER) signal
  else
    signal ++ replicate (Z.to_nat (SAMPLES_TO_CONSIDER - Z.of_nat (length signal))) zero.

Definition preprocess (file_path : list Z) (num_mfcc n_fft hop_length : Z)
  : result (ndarray flt) :=
  let* '(signal, sample_rate) := librosa_load file_path in
  let signal := fix_signal_length signal in
  let MFCCs := librosa_mfcc signal sample_rate num_mfcc n_fft hop_length in
  Ok (nd_T MFCCs).

(** [np.argmax] over the flattened array: the first index holding the
    maximum; [ValueError] on an empty array. *)
Fixpoint argmax_from (best : flt) (best_i i : nat) (l : list flt) : nat :=
  match l with
  | [] => best_i
  | x :: l' =>
      if flt_ltb best x then argmax_from x i (S i) l'
      else argmax_from best best_i (S i) l'
  end.

Definition np_argmax (a : ndarray flt) : result nat :=
  match nd_data a with
  | [] => Raise ValueError
  | x :: l => Ok (argmax_from x 0 1 l)
  end.

Definition CNN_predict (file_path : list Z) : result (string * list flt) :=
  let* MFCCs := preprocess file_path 13 2048 512 in
  let MFCCs := nd_newaxis_ends MFCCs in
  let* predictions := model_predict MFCCs in
  let* predicted_index := np_argmax predictions in
  let* predicted_keyword := np_getitem mapping (Z.of_nat predicted_index) in
  Ok (predicted_keyword, nd_flatten predictions).

(** Lines 131-135: the rows of the data frame. *)
Definition top_confidences (confidences : list flt) : result (list (string * flt)) :=
  let s := 10 in
  let* part := np_argpartition confidences (- s) in
  let ind := py_last (Z.to_nat s) part in
  let* kwrds := np_take mapping ind in
  let* confs := np_take confidences ind in
  Ok (zip kwrds confs).

Definition create_visualization (file : list Z) : St flt unit :=
  let+ '(predicted_keyword, confidences) := st_lift (CNN_predict file) in
  let+ _ := st_emit (st_markdown (heard_text predicted_keyword)) in
  let+ data := st_lift (top_confidences confidences) in
  let chart := mk_Chart data "confidence" "keyword" "-x" in
  st_emit (st_write chart).

(** Lines 142-154.  [uploaded_file] holds the uploaded file's bytes;
    [recorded_file] is the recorder's value when it is a dictionary, with its
    ['arr'] entry. *)
Definition output_branch (uploaded_file : option (list Z))
    (recorded_file : option SparseSampleMap) : St flt unit :=
  let+ _ := st_emit (st_markdown "## Output") in
  match uploaded_file with
  | Some bytes => create_visualization bytes
  | None =>
      match recorded_file with
      | Some arr =>
          let+ _ := st_emit (st_spinner "retrieving audio-recording...") in
          let+ wav_bytes := st_lift (retrieve_recording arr) in
          create_visualization wav_bytes
      | None => st_ret tt
      end
  end.

(** What numpy documents of [np.argpartition(a, kth)]'s result [p]: a
    permutation of the indices of [a] such that the element at position [k]
    is where a sort would put it, no element before it is greater and no
    element after it is smaller. *)
Definition partitioned_at (a : list flt) (k : nat) (p : list Z) : Prop :=
  p ≡ₚ seqZ 0 (Z.of_nat (length a)) /\
  forall (i : nat) (pi pk : Z) (x y : flt),
    p !! i = Some pi -> a !! Z.to_nat pi = Some x ->
    p !! k = Some pk -> a !! Z.to_nat pk = Some y ->
    ((i < k)%nat -> flt_ltb y x = false) /\
    ((k < i)%nat -> flt_ltb x y = false).

(** Rows in descending order of confidence. *)
Fixpoint descending (rows : list (string * flt)) : bool :=
  match rows with
  | r1 :: ((r2 :: _) as rows') => negb (flt_ltb (snd r1) (snd r2)) && descending rows'
  | _ => true
  end.

End Pipeline.

(** ** A concrete instance

    Integers for the numbers, and small stand-ins for the libraries, to run
    the definitions above: a decoder that rejects the empty buffer and reads
    one sample per byte, a feature extraction that returns zeros in librosa's
    shape, a model that scores label [i] with [i], and an [np.argpartition]
    that sorts completely (a full sort of the indices meets its contract). *)
Module Demo.

Definition load (bytes : list Z) : result (list Z * Z) :=
  match bytes with
  | [] => Raise (ExternalError "librosa.load")
  | _ :: _ => Ok (bytes, 22050)
  end.

Definition mfcc (y : list Z) (sr n_mfcc n_fft hop_length : Z) : ndarray Z :=
  let shape := [Z.to_nat n_mfcc;
                Z.to_nat (stft_frame_count (Z.of_nat (length y)) n_fft hop_length)] in
  mk_ndarray shape (replicate (nd_size shape) 0).

Definition model (x : ndarray Z) : result (ndarray Z) :=
  match nd_shape x with
  | [1%nat; 44%nat; 13%nat; 1%nat] => Ok (mk_ndarray [1%nat; 35%nat] (seqZ 0 35))
  | _ => Raise (ExternalError "model.predict")
  end.

Fixpoint insert_index (a : list Z) (i : Z) (l : list Z) : list Z :=
  match l with
  | [] => [i]
  | j :: l' =>
      if default 0 (a !! Z.to_nat j) <? default 0 (a !! Z.to_nat i)
      then j :: insert_index a i l'
      else i :: l
  end.

Definition argpartition (a : list Z) (kth : Z) : result (list Z) :=
  let n := Z.of_nat (length a) in
  if (- n <=? kth) && (kth <? n) then
    Ok (foldr (insert_index a) [] (seqZ 0 n))
  else Raise ValueError.

(** Half a second of sound at 22050 Hz, one sample per byte. *)
Definition half_second : list Z := replicate (Z.to_nat 11025) 1.

End Demo.

(** ** Facts about the helpers *)

Lemma mapM_result_length {A B : Type} (f : A -> result B) (l : list A) (ys : list B) :
  mapM_result f l = Ok ys -> length ys = length l.
Proof.
  revert ys. induction l as [|x l IH]; intros ys H; simpl in H.
  - injection H as <-. reflexivity.
  - destruct (f x) as [y|e]; simpl in H; [|discriminate].
    destruct (mapM_result f l) as [zs|e]; simpl in H; [|discriminate].
    injection H as <-. simpl. f_equal. apply IH. reflexivity.
Qed.

Lemma mapM_result_raise {A B : Type} (f : A -> result B) (l : list A) (e : exn) :
  (forall x e', In x l -> f x = Raise e' -> e' = e) ->
  (exists x, In x l /\ f x = Raise e) ->
  mapM_result f l = Raise e.
Proof.
  induction l as [|x l IH]; intros Hall [x0 [Hin Hx0]].
  - destruct Hin.
  - simpl. destruct (f x) as [y|e'] eqn:Hfx; simpl.
    + destruct Hin as [->|Hin]; [congruence|].
      rewrite IH; [reflexivity| |].
      * intros z e'' Hz. apply Hall. right. exact Hz.
      * exists x0. split; assumption.
    + f_equal. apply (Hall x e'); [left; reflexivity|exact Hfx].
Qed.

Lemma np_getitem_raise {A : Type} (a : list A) (i : Z) (e : exn) :
  np_getitem a i = Raise e -> e = IndexError.
Proof.
  unfold np_getitem. intros H.
  destruct ((0 <=? _) && _); [destruct (a !! _)|]; congruence.
Qed.

Lemma np_getitem_out_of_bounds {A : Type} (a : list A) (i : Z) :
  Z.of_nat (length a) <= i -> np_getitem a i = Raise IndexError.
Proof.
  intros H. unfold np_getitem.
  assert (Hneg : (i <? 0) = false) by (apply Z.ltb_ge; lia).
  rewrite Hneg.
  assert (Hlt : (i <? Z.of_nat (length a)) = false) by (apply Z.ltb_ge; lia).
  rewrite Hlt, andb_false_r. reflexivity.
Qed.

Lemma np_getitem_in_range {A : Type} (a : list A) (i : Z) (x : A) :
  0 <= i -> a !! Z.to_nat i = Some x -> np_getitem a i = Ok x.
Proof.
  intros Hi Hx. unfold np_getitem.
  assert (Hlen : (Z.to_nat i < length a)%nat) by (apply lookup_lt_Some in Hx; exact Hx).
  assert (Hneg : (i <? 0) = false) by (apply Z.ltb_ge; lia).
  rewrite Hneg.
  assert (Hin : ((0 <=? i) && (i <? Z.of_nat (length a))) = true).
  { apply andb_true_iff. split; [apply Z.leb_le|apply Z.ltb_lt]; lia. }
  rewrite Hin, Hx. reflexivity.
Qed.

Lemma np_take_in_range {A : Type} (a : list A) (ind : list Z) :
  Forall (fun z => 0 <= z < Z.of_nat (length a)) ind ->
  exists xs : list A,
    np_take a ind = Ok xs /\
    Forall2 (fun z x => a !! Z.to_nat z = Some x) ind xs.
Proof.
  induction 1 as [|z ind Hz _ IH].
  - exists []. split; [reflexivity|constructor].
  - destruct IH as [xs [Hxs HF]].
    destruct (lookup_lt_is_Some_2 a (Z.to_nat z)) as [x Hx]; [lia|].
    exists (x :: xs). split; [|constructor; assumption].
    unfold np_take in *. cbn [mapM_result].
    rewrite (np_getitem_in_range a z x) by (lia || exact Hx).
    cbn [rbind]. rewrite Hxs. reflexivity.
Qed.

Lemma Forall2_zip_rows {A B C : Type} (P : A -> B -> Prop) (Q : A -> C -> Prop)
    (l : list A) (k1 : list B) (k2 : list C) :
  Forall2 P l k1 -> Forall2 Q l k2 ->
  Forall2 (fun a r => P a (fst r) /\ Q a (snd r)) l (zip k1 k2).
Proof.
  intros H1. revert k2. induction H1 as [|a b l k1 Hab _ IH]; intros k2 H2.
  - inversion H2. constructor.
  - inversion H2 as [|a' c l' k2' Hac H2']; subst.
    simpl. constructor; [split; assumption|]. apply IH. exact H2'.
Qed.

(** ** Sample Reconstructor: statements *)

(** C1 (the code departs from the claim).  The dictionary inserted in index
    order {0:10, 1:20, 2:30} gives the bytes [10,20,30], but the dictionary
    inserted as {2:5, 0:1, 1:3} gives [3,5,1], not the bytes in ascending
    index order [1,3,5]: [val[ind]] reads the value at insertion position
    [ind[i]] instead of the value whose index is the i-th smallest. *)
Theorem retrieve_recording_insertion_order :
  retrieve_recording [(0, 10); (1, 20); (2, 30)] = Ok [10; 20; 30] /\
  retrieve_recording [(2, 5); (0, 1); (1, 3)] = Ok [3; 5; 1] /\
  values_by_ascending_index [(2, 5); (0, 1); (1, 3)] = [1; 3; 5].
Proof. repeat split; reflexivity. Qed.

(** C2.  With no sample captured the reconstruction raises (the unpacking
    [ValueError], this script's empty-recording error), and no dictionary at
    all makes it succeed with a zero-length byte stream. *)
Theorem retrieve_recording_empty :
  retrieve_recording [] = Raise ValueError /\
  forall arr : SparseSampleMap, retrieve_recording arr <> Ok [].
Proof.
  split; [reflexivity|].
  intros [|kv arr] H; [discriminate|].
  unfold retrieve_recording in H. simpl in H.
  destruct (np_take _ _) as [ints|e] eqn:Htake; simpl in H; [|discriminate].
  apply mapM_result_length in H.
  apply mapM_result_length in Htake.
  simpl in H, Htake. rewrite Htake in H. discriminate.
Qed.

Lemma mapM_to_bytes1_in_range (vals : list Z) :
  Forall (fun v => 0 <= v < 256) vals -> mapM_result to_bytes1 vals = Ok vals.
Proof.
  induction 1 as [|v vals Hv _ IH]; [reflexivity|].
  cbn [mapM_result]. unfold to_bytes1 at 1.
  assert (Hin : ((0 <=? v) && (v <? 256)) = true).
  { apply andb_true_iff. split; [apply Z.leb_le|apply Z.ltb_lt]; lia. }
  rewrite Hin. cbn [rbind]. rewrite IH. reflexivity.
Qed.

Lemma np_take_all_positions {A : Type} (a : list A) :
  np_take a (seqZ 0 (Z.of_nat (length a))) = Ok a.
Proof.
  destruct (np_take_in_range a (seqZ 0 (Z.of_nat (length a)))) as [xs [Hxs HF]].
  { apply Forall_forall. intros z Hz. apply elem_of_seqZ in Hz. lia. }
  rewrite Hxs. f_equal.
  assert (Hlen : length xs = length a).
  { apply Forall2_length in HF. rewrite length_seqZ in HF. lia. }
  apply list_eq. intros i.
  destruct (Nat.lt_ge_cases i (length a)) as [Hlt|Hge].
  - assert (Hi : seqZ 0 (Z.of_nat (length a)) !! i = Some (Z.of_nat i)).
    { apply lookup_seqZ. lia. }
    destruct (Forall2_lookup_l _ _ _ _ _ HF Hi) as [x [Hx Hax]].
    rewrite Nat2Z.id in Hax. rewrite Hx, Hax. reflexivity.
  - rewrite !lookup_ge_None_2 by lia. reflexivity.
Qed.

(** Where the recording branch does give the bytes in index order: a
    dictionary with the keys 0, 1, ..., n-1 inserted in that order and values
    in 0..255 comes out as its values, in order. *)
Theorem retrieve_recording_dense_in_order (vals : list Z) :
  vals <> [] ->
  Forall (fun v => 0 <= v < 256) vals ->
  retrieve_recording (zip (seqZ 0 (Z.of_nat (length vals))) vals) = Ok vals.
Proof.
  intros Hne Hbytes.
  assert (Hlen : length (seqZ 0 (Z.of_nat (length vals))) = length vals)
    by (rewrite length_seqZ; lia).
  unfold retrieve_recording, unzip_items.
  destruct (zip (seqZ 0 (Z.of_nat (length vals))) vals) as [|kv arr] eqn:Hzip.
  - apply (f_equal length) in Hzip. rewrite length_zip_with in Hzip.
    destruct vals; [congruence|]. simpl in Hzip, Hlen. lia.
  - rewrite <- Hzip. cbn [rbind].
    change (map fst (zip (seqZ 0 (Z.of_nat (length vals))) vals))
      with ((zip (seqZ 0 (Z.of_nat (length vals))) vals).*1).
    change (map snd (zip (seqZ 0 (Z.of_nat (length vals))) vals))
      with ((zip (seqZ 0 (Z.of_nat (length vals))) vals).*2).
    rewrite fst_zip, snd_zip by lia.
    rewrite np_take_all_positions. cbn [rbind].
    apply mapM_to_bytes1_in_range. exact Hbytes.
Qed.

Lemma retrieve_recording_dense_in_order_witness :
  retrieve_recording (zip (seqZ 0 (Z.of_nat (length [10; 20; 30]))) [10; 20; 30])
  = Ok [10; 20; 30].
Proof.
  apply (retrieve_recording_dense_in_order [10; 20; 30]).
  - discriminate.
  - repeat constructor; lia.
Defined.

(** ** Arrays: transposition *)

Lemma omap_all_Some {A B : Type} (g : A -> option B) (h : A -> B) (l : list A) :
  (forall x, x ∈ l -> g x = Some (h x)) -> omap g l = h <$> l.
Proof.
  induction l as [|x l IH]; intros Hg; [reflexivity|].
  cbn [omap list_omap]. rewrite (Hg x) by left.
  cbn. f_equal. apply IH. intros y Hy. apply Hg. right. exact Hy.
Qed.

Lemma nd_indices_1 (r : nat) : nd_indices [r] = (fun i => [i]) <$> seq 0 r.
Proof.
  cbn [nd_indices]. generalize 0%nat.
  induction r as [|r IH]; intros s; [reflexivity|].
  cbn [seq flat_map map app fmap list_fmap]. rewrite <- IH. reflexivity.
Qed.

Lemma lookup_flat_map_blocks {A : Type} (f : nat -> nat -> A) (r c s i j : nat) :
  (i < r)%nat -> (j < c)%nat ->
  flat_map (fun j' => f j' <$> seq 0 r) (seq s c) !! (j * r + i)%nat
  = Some (f (s + j)%nat i).
Proof.
  intros Hi. revert s j. induction c as [|c IH]; intros s j Hj; [lia|].
  cbn [seq flat_map].
  assert (Hlen : length (f s <$> seq 0 r) = r) by (rewrite length_fmap, length_seq; reflexivity).
  destruct j as [|j].
  - rewrite lookup_app_l by (rewrite Hlen; lia).
    rewrite list_lookup_fmap, lookup_seq_lt by lia.
    cbn. rewrite Nat.add_0_r. reflexivity.
  - rewrite lookup_app_r by (rewrite Hlen; lia).
    rewrite Hlen. replace (S j * r + i - r)%nat with (j * r + i)%nat by lia.
    rewrite IH by lia. f_equal. f_equal. lia.
Qed.

Lemma elem_of_nd_indices_2 (c r : nat) (idx : list nat) :
  idx ∈ nd_indices [c; r] ->
  exists j i : nat, idx = [j; i] /\ (j < c)%nat /\ (i < r)%nat.
Proof.
  change (nd_indices [c; r])
    with (flat_map (fun j => map (cons j) (nd_indices [r])) (seq 0 c)).
  rewrite nd_indices_1. intros Hin.
  apply list_elem_of_In, in_flat_map in Hin as [j [Hj Hin]].
  apply in_map_iff in Hin as [tl [<- Htl]].
  apply list_elem_of_In, list_elem_of_fmap in Htl as [i [-> Hi]].
  apply in_seq in Hj. apply elem_of_seq in Hi.
  exists j, i. split; [reflexivity|lia].
Qed.

(** The transposed matrix holds at [j, i] what the matrix holds at [i, j]:
    [preprocess] returns librosa's coefficients with time as the leading
    axis. *)
Theorem nd_T_matrix {A : Type} (a : ndarray A) (r c : nat) :
  nd_shape a = [r; c] ->
  nd_wf a ->
  nd_shape (nd_T a) = [c; r] /\
  forall i j : nat, nd_get (nd_T a) [j; i] = nd_get a [i; j].
Proof.
  intros Hshape Hwf. split; [unfold nd_T; cbn [nd_shape]; rewrite Hshape; reflexivity|].
  intros i j.
  unfold nd_wf in Hwf. rewrite Hshape in Hwf. cbn [nd_size foldr] in Hwf.
  unfold nd_get at 1. unfold nd_T. cbn [nd_shape nd_data]. rewrite Hshape.
  cbn [rev app ravel_index nd_size foldr].
  destruct (Nat.ltb_spec j c) as [Hj|Hj].
  2:{ unfold nd_get. rewrite Hshape. cbn [ravel_index nd_size foldr].
      destruct (i <? r)%nat; [|reflexivity].
      destruct (Nat.ltb_spec j c); [lia|reflexivity]. }
  destruct (Nat.ltb_spec i r) as [Hi|Hi].
  2:{ unfold nd_get. rewrite Hshape. cbn [ravel_index nd_size foldr].
      destruct (Nat.ltb_spec i r); [lia|reflexivity]. }
  assert (Hget : forall i' j', (i' < r)%nat -> (j' < c)%nat ->
            nd_get a [i'; j'] = nd_data a !! (i' * c + j')%nat).
  { intros i' j' Hi' Hj'. unfold nd_get. rewrite Hshape.
    cbn [ravel_index nd_size foldr].
    destruct (Nat.ltb_spec i' r); [|lia]. destruct (Nat.ltb_spec j' c); [|lia].
    f_equal. lia. }
  destruct (lookup_lt_is_Some_2 (nd_data a) (i * c + j)%nat) as [d Hd]; [nia|].
  rewrite (omap_all_Some _ (fun idx => default d (nd_get a (rev idx)))).
  2:{ intros idx Hidx.
      apply elem_of_nd_indices_2 in Hidx as [j' [i' [-> [Hj' Hi']]]].
      cbn [rev app]. rewrite (Hget i' j') by assumption.
      destruct (lookup_lt_is_Some_2 (nd_data a) (i' * c + j')%nat) as [x Hx]; [nia|].
      rewrite Hx. reflexivity. }
  change (nd_indices [c; r])
    with (flat_map (fun j' => map (cons j') (nd_indices [r])) (seq 0 c)).
  rewrite nd_indices_1, list_lookup_fmap.
  replace (j * (r * 1) + (i * 1 + 0))%nat with (j * r + i)%nat by lia.
  assert (Hidx : flat_map (fun j' => map (cons j') ((fun i' => [i']) <$> seq 0 r))
                   (seq 0 c) !! (j * r + i)%nat = Some [j; i]).
  { etransitivity;
      [|exact (lookup_flat_map_blocks (fun j' i' => [j'; i']) r c 0 i j Hi Hj)].
    f_equal. apply flat_map_ext. intros j'.
    change (map (cons j') ((fun i' => [i']) <$> seq 0 r))
      with (cons j' <$> ((fun i' => [i']) <$> seq 0 r)).
    rewrite <- list_fmap_compose. reflexivity. }
  rewrite Hidx. cbn [fmap option_fmap option_map rev app].
  rewrite (Hget i j) by assumption. rewrite Hd. reflexivity.
Qed.

Lemma nd_T_matrix_witness :
  nd_shape (nd_T (mk_ndarray [2; 3]%nat [1; 2; 3; 4; 5; 6])) = [3; 2]%nat /\
  forall i j : nat,
    nd_get (nd_T (mk_ndarray [2; 3]%nat [1; 2; 3; 4; 5; 6])) [j; i]
    = nd_get (mk_ndarray [2; 3]%nat [1; 2; 3; 4; 5; 6]) [i; j].
Proof.
  apply (nd_T_matrix (mk_ndarray [2; 3]%nat [1; 2; 3; 4; 5; 6]) 2 3); reflexivity.
Defined.

(** ** Arrays: well-formedness through the pipeline *)

Lemma omap_length_all_Some {A B : Type} (g : A -> option B) (l : list A) :
  (forall x, x ∈ l -> is_Some (g x)) -> length (omap g l) = length l.
Proof.
  induction l as [|x l IH]; intros Hg; [reflexivity|].
  cbn [omap list_omap]. destruct (Hg x) as [y Hy]; [left|]. rewrite Hy.
  cbn. f_equal. apply IH. intros z Hz. apply Hg. right. exact Hz.
Qed.

Lemma length_nd_indices_2 (c r : nat) : length (nd_indices [c; r]) = (c * r)%nat.
Proof.
  change (nd_indices [c; r])
    with (flat_map (fun j => map (cons j) (nd_indices [r])) (seq 0 c)).
  assert (Hblk : length (nd_indices [r]) = r)
    by (rewrite nd_indices_1, length_fmap, length_seq; reflexivity).
  revert Hblk. generalize (nd_indices [r]). intros blk Hblk. generalize 0%nat.
  induction c as [|c IH]; intros s; [reflexivity|].
  cbn [seq flat_map]. rewrite length_app, IH, length_map, Hblk.
  lia.
Qed.

Lemma nd_T_wf_matrix {A : Type} (a : ndarray A) (r c : nat) :
  nd_shape a = [r; c] -> nd_wf a -> nd_wf (nd_T a).
Proof.
  intros Hshape Hwf. unfold nd_wf in *. rewrite Hshape in Hwf.
  cbn [nd_size foldr] in Hwf.
  unfold nd_T. cbn [nd_shape nd_data]. rewrite Hshape. cbn [rev app nd_size foldr].
  rewrite omap_length_all_Some.
  - rewrite length_nd_indices_2. lia.
  - intros idx Hidx.
    apply elem_of_nd_indices_2 in Hidx as [j [i [-> [Hj Hi]]]].
    cbn [rev app]. unfold nd_get. rewrite Hshape. cbn [ravel_index nd_size foldr].
    destruct (Nat.ltb_spec i r); [|lia]. destruct (Nat.ltb_spec j c); [|lia].
    apply lookup_lt_is_Some_2. nia.
Qed.

Lemma nd_size_app (s t : list nat) : nd_size (s ++ t) = (nd_size s * nd_size t)%nat.
Proof.
  unfold nd_size. induction s as [|d s IH]; cbn [app foldr]; [lia|].
  rewrite IH. lia.
Qed.

Lemma nd_newaxis_ends_wf {A : Type} (a : ndarray A) : nd_wf a -> nd_wf (nd_newaxis_ends a).
Proof.
  unfold nd_wf, nd_newaxis_ends. cbn [nd_shape nd_data]. intros ->.
  change (nd_size (1%nat :: nd_shape a ++ [1%nat]))
    with (1 * nd_size (nd_shape a ++ [1%nat]))%nat.
  rewrite nd_size_app. cbn [nd_size foldr]. lia.
Qed.

Lemma nd_T_get_matrix {A : Type} (a : ndarray A) (r c : nat) :
  nd_shape a = [r; c] ->
  nd_wf a ->
  nd_shape (nd_T a) = [c; r] /\
  forall i j : nat, nd_get (nd_T a) [j; i] = nd_get a [i; j].
Proof.
  intros Hshape Hwf. split; [unfold nd_T; cbn [nd_shape]; rewrite Hshape; reflexivity|].
  intros i j.
  unfold nd_wf in Hwf. rewrite Hshape in Hwf. cbn [nd_size foldr] in Hwf.
  unfold nd_get at 1. unfold nd_T. cbn [nd_shape nd_data]. rewrite Hshape.
  cbn [rev app ravel_index nd_size foldr].
  destruct (Nat.ltb_spec j c) as [Hj|Hj].
  2:{ unfold nd_get. rewrite Hshape. cbn [ravel_index nd_size foldr].
      destruct (i <? r)%nat; [|reflexivity].
      destruct (Nat.ltb_spec j c); [lia|reflexivity]. }
  destruct (Nat.ltb_spec i r) as [Hi|Hi].
  2:{ unfold nd_get. rewrite Hshape. cbn [ravel_index nd_size foldr].
      destruct (Nat.ltb_spec i r); [lia|reflexivity]. }
  assert (Hget : forall i' j', (i' < r)%nat -> (j' < c)%nat ->
            nd_get a [i'; j'] = nd_data a !! (i' * c + j')%nat).
  { intros i' j' Hi' Hj'. unfold nd_get. rewrite Hshape.
    cbn [ravel_index nd_size foldr].
    destruct (Nat.ltb_spec i' r); [|lia]. destruct (Nat.ltb_spec j' c); [|lia].
    f_equal. lia. }
  destruct (lookup_lt_is_Some_2 (nd_data a) (i * c + j)%nat) as [d Hd]; [nia|].
  rewrite (omap_all_Some _ (fun idx => default d (nd_get a (rev idx)))).
  2:{ intros idx Hidx.
      apply elem_of_nd_indices_2 in Hidx as [j' [i' [-> [Hj' Hi']]]].
      cbn [rev app]. rewrite (Hget i' j') by assumption.
      destruct (lookup_lt_is_Some_2 (nd_data a) (i' * c + j')%nat) as [x Hx]; [nia|].
      rewrite Hx. reflexivity. }
  change (nd_indices [c; r])
    with (flat_map (fun j' => map (cons j') (nd_indices [r])) (seq 0 c)).
  rewrite nd_indices_1, list_lookup_fmap.
  replace (j * (r * 1) + (i * 1 + 0))%nat with (j * r + i)%nat by lia.
  assert (Hidx : flat_map (fun j' => map (cons j') ((fun i' => [i']) <$> seq 0 r))
                   (seq 0 c) !! (j * r + i)%nat = Some [j; i]).
  { etransitivity;
      [|exact (lookup_flat_map_blocks (fun j' i' => [j'; i']) r c 0 i j Hi Hj)].
    f_equal. apply flat_map_ext. intros j'.
    change (map (cons j') ((fun i' => [i']) <$> seq 0 r))
      with (cons j' <$> ((fun i' => [i']) <$> seq 0 r)).
    rewrite <- list_fmap_compose. reflexivity. }
  rewrite Hidx. cbn [fmap option_fmap option_map rev app].
  rewrite (Hget i j) by assumption. rewrite Hd. reflexivity.
Qed.

(** ** Arrays: adding the batch and channel axes *)

Lemma ravel_index_newaxis_ends (T C t c : nat) :
  ravel_index [1; T; C; 1]%nat [0; t; c; 0]%nat = ravel_index [T; C] [t; c].
Proof.
  cbn [ravel_index nd_size foldr].
  destruct (t <? T)%nat; [|reflexivity].
  destruct (c <? C)%nat; [|reflexivity].
  cbn. f_equal; lia.
Qed.

(** ** Feature Extractor and Classifier Wrapper: statements *)

Section PipelineFacts.

Context {flt : Type}.
Variable zero : flt.
Variable flt_ltb : flt -> flt -> bool.
Variable librosa_load : list Z -> result (list flt * Z).
Variable librosa_mfcc : list flt -> Z -> Z -> Z -> Z -> ndarray flt.
Variable model_predict : ndarray flt -> result (ndarray flt).
Variable np_argpartition : list flt -> Z -> result (list Z).

Lemma fix_signal_length_length (signal : list flt) :
  Z.of_nat (length (fix_signal_length zero signal)) = SAMPLES_TO_CONSIDER.
Proof.
  unfold fix_signal_length, SAMPLES_TO_CONSIDER.
  destruct (Z.geb_spec (Z.of_nat (length signal)) 22050) as [Hge|Hlt].
  - rewrite length_take. lia.
  - rewrite length_app, length_replicate. lia.
Qed.

(** C3.  Whatever the decoded length, the signal handed to the MFCC
    extraction is [fix_signal_length] of the decoded one, of exactly
    [SAMPLES_TO_CONSIDER] = 22050 samples: the first 22050 samples of a signal
    that has at least that many, and otherwise the signal followed by zeros;
    for a signal of half that length the second half is all zeros. *)
Theorem preprocess_fixes_signal_length
    (file : list Z) (signal : list flt) (sr num_mfcc n_fft hop_length : Z) :
  librosa_load file = Ok (signal, sr) ->
  preprocess zero librosa_load librosa_mfcc file num_mfcc n_fft hop_length
    = Ok (nd_T (librosa_mfcc (fix_signal_length zero signal) sr num_mfcc n_fft hop_length)) /\
  SAMPLES_TO_CONSIDER = 22050 /\
  Z.of_nat (length (fix_signal_length zero signal)) = SAMPLES_TO_CONSIDER /\
  (SAMPLES_TO_CONSIDER <= Z.of_nat (length signal) ->
     fix_signal_length zero signal = take (Z.to_nat SAMPLES_TO_CONSIDER) signal) /\
  (Z.of_nat (length signal) < SAMPLES_TO_CONSIDER ->
     fix_signal_length zero signal
       = signal ++ replicate (Z.to_nat SAMPLES_TO_CONSIDER - length signal)%nat zero) /\
  (2 * Z.of_nat (length signal) = SAMPLES_TO_CONSIDER ->
     take (length signal) (fix_signal_length zero signal) = signal /\
     drop (length signal) (fix_signal_length zero signal)
       = replicate (length signal) zero).
Proof.
  intros Hload. split; [|split; [reflexivity|split; [apply fix_signal_length_length|]]].
  { unfold preprocess. rewrite Hload. reflexivity. }
  unfold fix_signal_length, SAMPLES_TO_CONSIDER.
  destruct (Z.geb_spec (Z.of_nat (length signal)) 22050) as [Hge|Hlt].
  - split; [reflexivity|]. split; intros; lia.
  - split; [intros; lia|].
    assert (Hpad : Z.to_nat (22050 - Z.of_nat (length signal))
                   = (Z.to_nat 22050 - length signal)%nat) by lia.
    split.
    + intros _. rewrite Hpad. reflexivity.
    + intros Hhalf.
      assert (Hn : Z.to_nat (22050 - Z.of_nat (length signal)) = length signal) by lia.
      rewrite Hn. split.
      * apply take_app_length.
      * apply drop_app_length.
Qed.

(** C8.  [CNN_predict] gives the model the array [nd_newaxis_ends] of the
    feature matrix: for a matrix of shape (T, C) an array of shape
    (1, T, C, 1) with the same elements in the same order, element
    [0, t, c, 0] being element [t, c] of the matrix. *)
Theorem CNN_predict_model_input
    (file : list Z) (M : ndarray flt) (T C : nat) :
  preprocess zero librosa_load librosa_mfcc file 13 2048 512 = Ok M ->
  nd_shape M = [T; C] ->
  CNN_predict zero flt_ltb librosa_load librosa_mfcc model_predict file
    = (let* predictions := model_predict (nd_newaxis_ends M) in
       let* predicted_index := np_argmax flt_ltb predictions in
       let* predicted_keyword := np_getitem mapping (Z.of_nat predicted_index) in
       Ok (predicted_keyword, nd_flatten predictions)) /\
  nd_shape (nd_newaxis_ends M) = [1; T; C; 1]%nat /\
  nd_data (nd_newaxis_ends M) = nd_data M /\
  forall t c : nat, nd_get (nd_newaxis_ends M) [0; t; c; 0]%nat = nd_get M [t; c].
Proof.
  intros Hpre Hshape. split; [|split; [|split]].
  - unfold CNN_predict. rewrite Hpre. reflexivity.
  - unfold nd_newaxis_ends. cbn [nd_shape]. rewrite Hshape. reflexivity.
  - reflexivity.
  - intros t c. unfold nd_get, nd_newaxis_ends. cbn [nd_shape nd_data].
    rewrite Hshape. cbn [app]. rewrite ravel_index_newaxis_ends. reflexivity.
Qed.

(** *** The shape of the feature matrix *)

Section FeatureShape.

(** librosa's output for the call the script makes, on a signal of 22050
    samples with 13 coefficients, window 2048 and hop 512: a well-formed array
    with one row per coefficient and one column per frame. *)
Hypothesis librosa_mfcc_frames :
  forall (y : list flt) (sr : Z),
    Z.of_nat (length y) = SAMPLES_TO_CONSIDER ->
    nd_shape (librosa_mfcc y sr 13 2048 512)
      = [13%nat; Z.to_nat (stft_frame_count SAMPLES_TO_CONSIDER 2048 512)] /\
    nd_wf (librosa_mfcc y sr 13 2048 512).

(** C7.  For every buffer that decodes, of any duration, [preprocess] returns
    a well-formed matrix of shape (44, 13): the number of time steps is the
    frame count of the fixed length 22050 for the window 2048 and the hop 512,
    and time is the leading axis, entry [t, c] being coefficient [c] of frame
    [t] in librosa's output. *)
Theorem preprocess_fixed_shape (file : list Z) (signal : list flt) (sr : Z) :
  librosa_load file = Ok (signal, sr) ->
  exists M : ndarray flt,
    preprocess zero librosa_load librosa_mfcc file 13 2048 512 = Ok M /\
    nd_shape M = [Z.to_nat (stft_frame_count SAMPLES_TO_CONSIDER 2048 512); 13%nat] /\
    nd_shape M = [44; 13]%nat /\
    nd_wf M /\
    forall t c : nat,
      nd_get M [t; c]
      = nd_get (librosa_mfcc (fix_signal_length zero signal) sr 13 2048 512) [c; t].
Proof.
  intros Hload.
  set (F := librosa_mfcc (fix_signal_length zero signal) sr 13 2048 512).
  destruct (librosa_mfcc_frames (fix_signal_length zero signal) sr
              (fix_signal_length_length signal)) as [HF Hwf].
  fold F in HF, Hwf.
  assert (HF' : nd_shape F = [13; 44]%nat) by exact HF.
  destruct (nd_T_get_matrix F 13 44 HF' Hwf) as [HT Hget].
  exists (nd_T F). split; [unfold preprocess; rewrite Hload; reflexivity|].
  split; [exact HT|]. split; [exact HT|].
  split; [apply (nd_T_wf_matrix F 13 44 HF' Hwf)|].
  intros t c. apply Hget.
Qed.

End FeatureShape.

(** *** The output branch *)

(** C9.  With an uploaded file the output branch runs [create_visualization]
    on the upload's bytes and nothing else: the recorder's value is not read,
    whatever it holds. *)
Theorem output_branch_upload_first
    (bytes : list Z) (recorded_file : option SparseSampleMap) :
  output_branch zero flt_ltb librosa_load librosa_mfcc model_predict np_argpartition
      (Some bytes) recorded_file
    = (let+ _ := st_emit (st_markdown "## Output") in
       create_visualization zero flt_ltb librosa_load librosa_mfcc model_predict
         np_argpartition bytes) /\
  output_branch zero flt_ltb librosa_load librosa_mfcc model_predict np_argpartition
      (Some bytes) recorded_file
    = output_branch zero flt_ltb librosa_load librosa_mfcc model_predict np_argpartition
        (Some bytes) None.
Proof. split; reflexivity. Qed.


(** *** The predicted label *)

Section ConfidenceOrder.

(** Confidences are finite numbers: [<] is a strict weak order on them. *)
Hypothesis flt_ltb_irrefl : forall x, flt_ltb x x = false.
Hypothesis flt_ltb_trans :
  forall x y z, flt_ltb x y = true -> flt_ltb y z = true -> flt_ltb x z = true.
Hypothesis flt_ltb_negtrans :
  forall x y z, flt_ltb x y = false -> flt_ltb y z = false -> flt_ltb x z = false.

Lemma flt_ltb_below (b x y : flt) :
  flt_ltb b x = true -> flt_ltb b y = false -> flt_ltb y x = true.
Proof.
  intros Hbx Hby. destruct (flt_ltb y x) eqn:Hyx; [reflexivity|].
  rewrite (flt_ltb_negtrans b y x Hby Hyx) in Hbx. discriminate.
Qed.

(** The scan of [np.argmax]: [pre] is the part already read, [best] its
    maximum and [best_i] the first position holding it. *)
Lemma argmax_from_spec (l pre : list flt) (best : flt) (best_i : nat) :
  pre !! best_i = Some best ->
  (forall j x, pre !! j = Some x -> flt_ltb best x = false) ->
  (forall j x, (j < best_i)%nat -> pre !! j = Some x -> flt_ltb x best = true) ->
  exists m : flt,
    (pre ++ l) !! argmax_from flt_ltb best best_i (length pre) l = Some m /\
    (forall j x, (pre ++ l) !! j = Some x -> flt_ltb m x = false) /\
    (forall j x, (j < argmax_from flt_ltb best best_i (length pre) l)%nat ->
                 (pre ++ l) !! j = Some x -> flt_ltb x m = true).
Proof.
  revert pre best best_i.
  induction l as [|x l IH]; intros pre best best_i Hbest Hmax Hfirst.
  - rewrite app_nil_r. cbn [argmax_from]. exists best. auto.
  - cbn [argmax_from].
    assert (Hlen : length (pre ++ [x]) = S (length pre))
      by (rewrite length_app; simpl; lia).
    replace (pre ++ x :: l) with ((pre ++ [x]) ++ l)
      by (rewrite <- app_assoc; reflexivity).
    rewrite <- Hlen.
    destruct (flt_ltb best x) eqn:Hbx.
    + apply (IH (pre ++ [x]) x (length pre)).
      * rewrite lookup_app_r by lia. rewrite Nat.sub_diag. reflexivity.
      * intros j y Hj. apply lookup_app_Some in Hj as [Hj|[_ Hj]].
        -- destruct (flt_ltb x y) eqn:Hxy; [|reflexivity].
           specialize (Hmax j y Hj).
           rewrite (flt_ltb_trans best x y Hbx Hxy) in Hmax. discriminate.
        -- destruct (j - length pre)%nat; simpl in Hj; [|discriminate].
           injection Hj as <-. apply flt_ltb_irrefl.
      * intros j y Hlt Hj. rewrite lookup_app_l in Hj by exact Hlt.
        apply (flt_ltb_below best); [exact Hbx|]. apply (Hmax j). exact Hj.
    + apply (IH (pre ++ [x]) best best_i).
      * apply lookup_app_l_Some. exact Hbest.
      * intros j y Hj. apply lookup_app_Some in Hj as [Hj|[_ Hj]].
        -- apply (Hmax j). exact Hj.
        -- destruct (j - length pre)%nat; simpl in Hj; [|discriminate].
           injection Hj as <-. exact Hbx.
      * intros j y Hlt Hj.
        assert (Hbi : (best_i < length pre)%nat)
          by (apply lookup_lt_Some in Hbest; exact Hbest).
        rewrite lookup_app_l in Hj by lia.
        apply (Hfirst j); assumption.
Qed.

Lemma np_argmax_spec (a : ndarray flt) :
  nd_data a <> [] ->
  exists (i : nat) (m : flt),
    np_argmax flt_ltb a = Ok i /\
    nd_data a !! i = Some m /\
    (forall j x, nd_data a !! j = Some x -> flt_ltb m x = false) /\
    (forall j x, (j < i)%nat -> nd_data a !! j = Some x -> flt_ltb x m = true).
Proof.
  intros Hne. unfold np_argmax.
  destruct (nd_data a) as [|x l]; [congruence|].
  destruct (argmax_from_spec l [x] x 0) as [m [Hm [Hmax Hfirst]]].
  - reflexivity.
  - intros [|j] y Hj; simpl in Hj; [|discriminate].
    injection Hj as <-. apply flt_ltb_irrefl.
  - intros j y Hlt. lia.
  - exists (argmax_from flt_ltb x 0 1 l), m. auto.
Qed.

(** C6.  When the model answers with one row of as many confidences as there
    are labels (35), [CNN_predict] returns the model's confidences in their
    order, one per label of [mapping], together with the label at the arg-max
    position: the first position whose confidence no other exceeds. *)
Theorem CNN_predict_argmax_label
    (file : list Z) (M predictions : ndarray flt) :
  preprocess zero librosa_load librosa_mfcc file 13 2048 512 = Ok M ->
  model_predict (nd_newaxis_ends M) = Ok predictions ->
  nd_shape predictions = [1%nat; length mapping] ->
  nd_wf predictions ->
  exists (i : nat) (predicted_keyword : string) (m : flt),
    CNN_predict zero flt_ltb librosa_load librosa_mfcc model_predict file
      = Ok (predicted_keyword, nd_data predictions) /\
    length (nd_data predictions) = length mapping /\
    length mapping = 35%nat /\
    mapping !! i = Some predicted_keyword /\
    nd_data predictions !! i = Some m /\
    (forall j x, nd_data predictions !! j = Some x -> flt_ltb m x = false) /\
    (forall j x, (j < i)%nat -> nd_data predictions !! j = Some x -> flt_ltb x m = true).
Proof.
  intros Hpre Hmodel Hshape Hwf.
  assert (Hlen : length (nd_data predictions) = 35%nat).
  { unfold nd_wf in Hwf. rewrite Hwf, Hshape. reflexivity. }
  destruct (np_argmax_spec predictions) as [i [m [Harg [Hm [Hmax Hfirst]]]]].
  { intros Hnil. rewrite Hnil in Hlen. discriminate. }
  assert (Hi : (i < 35)%nat) by (apply lookup_lt_Some in Hm; lia).
  destruct (lookup_lt_is_Some_2 mapping i Hi) as [kw Hkw].
  exists i, kw, m.
  split; [|repeat split; try assumption].
  unfold CNN_predict. rewrite Hpre. cbn [rbind]. rewrite Hmodel. cbn [rbind].
  rewrite Harg. cbn [rbind].
  unfold np_getitem.
  assert (Hneg : (Z.of_nat i <? 0) = false) by (apply Z.ltb_ge; lia).
  rewrite Hneg.
  assert (Hin : ((0 <=? Z.of_nat i) && (Z.of_nat i <? Z.of_nat (length mapping))) = true).
  { apply andb_true_iff. split; [apply Z.leb_le; lia|].
    apply Z.ltb_lt. change (length mapping) with 35%nat. lia. }
  rewrite Hin, Nat2Z.id, Hkw. reflexivity.
Qed.

(** *** The rows of the chart *)

Lemma partitioned_at_indices (a : list flt) (k : nat) (p : list Z) :
  partitioned_at flt_ltb a k p ->
  length p = length a /\ NoDup p /\
  forall z, z ∈ p <-> 0 <= z < Z.of_nat (length a).
Proof.
  intros [Hperm _]. split; [|split].
  - rewrite Hperm, length_seqZ. lia.
  - rewrite Hperm. apply NoDup_seqZ.
  - intros z. rewrite Hperm, elem_of_seqZ. lia.
Qed.

(** The element at position [k] separates the indices kept by [p[k:]] from
    the others. *)
Lemma partitioned_at_pivot (a : list flt) (k : nat) (p : list Z) :
  partitioned_at flt_ltb a k p ->
  (k < length a)%nat ->
  exists (pk : Z) (v : flt),
    head (drop k p) = Some pk /\
    a !! Z.to_nat pk = Some v /\
    (forall i x, i ∈ drop k p -> a !! Z.to_nat i = Some x -> flt_ltb x v = false) /\
    (forall j y, 0 <= j -> j ∉ drop k p -> a !! Z.to_nat j = Some y ->
                 flt_ltb v y = false).
Proof.
  intros Hpart Hk.
  destruct (partitioned_at_indices a k p Hpart) as [Hlen [Hnd Hin]].
  destruct Hpart as [_ Hord].
  destruct (lookup_lt_is_Some_2 p k) as [pk Hpk]; [lia|].
  assert (Hpk_in : 0 <= pk < Z.of_nat (length a)).
  { apply Hin. apply list_elem_of_lookup_2 with k. exact Hpk. }
  destruct (lookup_lt_is_Some_2 a (Z.to_nat pk)) as [v Hv]; [lia|].
  exists pk, v. split; [|split; [exact Hv|split]].
  - rewrite head_lookup, lookup_drop, Nat.add_0_r. exact Hpk.
  - intros i x Hi Hx.
    apply list_elem_of_lookup_1 in Hi as [t Ht]. rewrite lookup_drop in Ht.
    destruct t as [|t].
    + rewrite Nat.add_0_r, Hpk in Ht. injection Ht as ->.
      rewrite Hv in Hx. injection Hx as ->. apply flt_ltb_irrefl.
    + destruct (Hord (k + S t)%nat i pk x v Ht Hx Hpk Hv) as [_ Hafter].
      apply Hafter. lia.
  - intros j y Hj Hout Hy.
    assert (Hj_in : j ∈ p).
    { apply Hin. apply lookup_lt_Some in Hy. lia. }
    apply list_elem_of_lookup_1 in Hj_in as [s Hs].
    destruct (Nat.lt_ge_cases s k) as [Hlt|Hge].
    + destruct (Hord s j pk y v Hs Hy Hpk Hv) as [Hbefore _]. apply Hbefore. exact Hlt.
    + exfalso. apply Hout. apply list_elem_of_lookup_2 with (s - k)%nat.
      rewrite lookup_drop. replace (k + (s - k))%nat with s by lia. exact Hs.
Qed.

Lemma top_confidences_rows (confidences : list flt) (part : list Z) :
  length confidences = length mapping ->
  np_argpartition confidences (- 10) = Ok part ->
  partitioned_at flt_ltb confidences (length confidences - 10) part ->
  exists rows : list (string * flt),
    top_confidences np_argpartition confidences = Ok rows /\
    length rows = 10%nat /\
    NoDup (py_last 10 part) /\
    Forall2 (fun z row => mapping !! Z.to_nat z = Some (fst row) /\
                          confidences !! Z.to_nat z = Some (snd row))
            (py_last 10 part) rows /\
    (forall z, z ∈ py_last 10 part -> 0 <= z) /\
    (forall i j x y,
       i ∈ py_last 10 part -> j ∉ py_last 10 part -> 0 <= j ->
       confidences !! Z.to_nat i = Some x -> confidences !! Z.to_nat j = Some y ->
       flt_ltb x y = false) /\
    (forall i0 i x0 x,
       head (py_last 10 part) = Some i0 -> i ∈ py_last 10 part ->
       confidences !! Z.to_nat i0 = Some x0 -> confidences !! Z.to_nat i = Some x ->
       flt_ltb x x0 = false).
Proof.
  intros Hlen Hpart Hord.
  assert (Hn : length confidences = 35%nat) by exact Hlen.
  destruct (partitioned_at_indices _ _ _ Hord) as [Hplen [Hnd Hin]].
  destruct (partitioned_at_pivot _ _ _ Hord) as [pk [v [Hhead [Hv [Hsel Hrest]]]]];
    [lia|].
  unfold py_last. rewrite Hplen. set (ind := drop (length confidences - 10) part) in *.
  assert (Hsub : forall z, z ∈ ind -> z ∈ part).
  { intros z Hz. apply list_elem_of_lookup_1 in Hz as [t Ht].
    unfold ind in Ht. rewrite lookup_drop in Ht.
    apply list_elem_of_lookup_2 in Ht. exact Ht. }
  assert (Hrange : Forall (fun z => 0 <= z < 35) ind).
  { apply Forall_forall. intros z Hz. apply Hsub, Hin in Hz. lia. }
  destruct (np_take_in_range mapping ind) as [kwrds [Hkw Fkw]]; [exact Hrange|].
  destruct (np_take_in_range confidences ind) as [confs [Hcf Fcf]].
  { rewrite Hn. exact Hrange. }
  assert (Hind_len : length ind = 10%nat) by (unfold ind; rewrite length_drop; lia).
  exists (zip kwrds confs). repeat split.
  - unfold top_confidences. cbv zeta.
    change (Z.opp 10) with (-10). rewrite Hpart. cbn [rbind].
    change (Z.to_nat 10) with 10%nat. unfold py_last. rewrite Hplen.
    fold ind. rewrite Hkw. cbn [rbind]. rewrite Hcf. reflexivity.
  - rewrite length_zip_with.
    apply Forall2_length in Fkw, Fcf. lia.
  - apply sublist_NoDup with part; [exact Hnd|apply sublist_drop].
  - apply (Forall2_zip_rows (fun z kw => mapping !! Z.to_nat z = Some kw)
                            (fun z c => confidences !! Z.to_nat z = Some c));
      assumption.
  - intros z Hz. apply Hsub, Hin in Hz. lia.
  - intros i j x y Hi Hj Hj0 Hx Hy.
    apply (flt_ltb_negtrans x v y).
    + apply (Hsel i); assumption.
    + apply (Hrest j); assumption.
  - intros i0 i x0 x Hi0 Hi Hx0 Hx.
    rewrite Hhead in Hi0. injection Hi0 as <-.
    rewrite Hv in Hx0. injection Hx0 as <-.
    apply (Hsel i); assumption.
Qed.

(** C4, as the code has it.  For the 35 confidences of a prediction,
    [create_visualization] writes the predicted word and then a chart over
    ten rows (label, confidence), one for each index kept by
    [np.argpartition(confidences, -10)[-10:]]: ten distinct indices, each row
    pairing [mapping[i]] with [confidences[i]], no kept confidence below one
    that was left out.  The rows stand in the order of the partition, the
    least of the ten first; the descending order is asked of the chart
    ([sort='-x']). *)
Theorem create_visualization_top_confidences
    (file : list Z) (predicted_keyword : string) (confidences : list flt)
    (part : list Z) :
  CNN_predict zero flt_ltb librosa_load librosa_mfcc model_predict file
    = Ok (predicted_keyword, confidences) ->
  length confidences = length mapping ->
  np_argpartition confidences (- 10) = Ok part ->
  partitioned_at flt_ltb confidences (length confidences - 10) part ->
  exists rows : list (string * flt),
    create_visualization zero flt_ltb librosa_load librosa_mfcc model_predict
        np_argpartition file
      = ([st_markdown (heard_text predicted_keyword);
          st_write (mk_Chart rows "confidence" "keyword" "-x")], Ok tt) /\
    length rows = 10%nat /\
    NoDup (py_last 10 part) /\
    Forall2 (fun z row => mapping !! Z.to_nat z = Some (fst row) /\
                          confidences !! Z.to_nat z = Some (snd row))
            (py_last 10 part) rows /\
    (forall z, z ∈ py_last 10 part -> 0 <= z) /\
    (forall i j x y,
       i ∈ py_last 10 part -> j ∉ py_last 10 part -> 0 <= j ->
       confidences !! Z.to_nat i = Some x -> confidences !! Z.to_nat j = Some y ->
       flt_ltb x y = false) /\
    (forall i0 i x0 x,
       head (py_last 10 part) = Some i0 -> i ∈ py_last 10 part ->
       confidences !! Z.to_nat i0 = Some x0 -> confidences !! Z.to_nat i = Some x ->
       flt_ltb x x0 = false).
Proof.
  intros Hpred Hlen Hpart Hord.
  destruct (top_confidences_rows confidences part Hlen Hpart Hord)
    as [rows [Hrows Hfacts]].
  exists rows. split; [|exact Hfacts].
  unfold create_visualization. rewrite Hpred.
  cbn [st_bind st_lift st_emit app]. rewrite Hrows. reflexivity.
Qed.

End ConfidenceOrder.

End PipelineFacts.

(** ** The statements on the concrete instance *)

Lemma Z_ltb_trans (x y z : Z) : (x <? y) = true -> (y <? z) = true -> (x <? z) = true.
Proof. rewrite !Z.ltb_lt. lia. Qed.

Lemma Z_ltb_negtrans (x y z : Z) :
  (x <? y) = false -> (y <? z) = false -> (x <? z) = false.
Proof. rewrite !Z.ltb_ge. lia. Qed.

Lemma demo_mfcc_shape (y : list Z) (sr n_mfcc n_fft hop_length : Z) :
  nd_shape (Demo.mfcc y sr n_mfcc n_fft hop_length)
  = [Z.to_nat n_mfcc; Z.to_nat (stft_frame_count (Z.of_nat (length y)) n_fft hop_length)].
Proof. reflexivity. Qed.

Lemma demo_mfcc_wf (y : list Z) (sr n_mfcc n_fft hop_length : Z) :
  nd_wf (Demo.mfcc y sr n_mfcc n_fft hop_length).
Proof. unfold nd_wf, Demo.mfcc. cbn [nd_shape nd_data]. apply length_replicate. Qed.

Lemma demo_preprocess (b : Z) (bytes : list Z) :
  preprocess 0 Demo.load Demo.mfcc (b :: bytes) 13 2048 512
    = Ok (nd_T (Demo.mfcc (fix_signal_length 0 (b :: bytes)) 22050 13 2048 512)) /\
  nd_shape (nd_T (Demo.mfcc (fix_signal_length 0 (b :: bytes)) 22050 13 2048 512))
    = [44; 13]%nat.
Proof.
  split; [reflexivity|].
  unfold nd_T. cbn [nd_shape]. rewrite demo_mfcc_shape, fix_signal_length_length.
  reflexivity.
Qed.

Lemma demo_model (M : ndarray Z) :
  nd_shape M = [44; 13]%nat ->
  Demo.model (nd_newaxis_ends M) = Ok (mk_ndarray [1; 35]%nat (seqZ 0 35)).
Proof.
  intros HM. unfold Demo.model, nd_newaxis_ends. cbn [nd_shape]. rewrite HM.
  reflexivity.
Qed.

Lemma demo_CNN_predict (b : Z) (bytes : list Z) :
  CNN_predict 0 Z.ltb Demo.load Demo.mfcc Demo.model (b :: bytes)
  = Ok ("four"%string, seqZ 0 35).
Proof.
  destruct (demo_preprocess b bytes) as [Hpre Hshape].
  unfold CNN_predict. rewrite Hpre. cbn [rbind].
  rewrite (demo_model _ Hshape). reflexivity.
Qed.

(** On confidences already in ascending order the identity is a result that
    [np.argpartition] may return. *)
Lemma partitioned_at_ascending (n k : nat) :
  partitioned_at Z.ltb (seqZ 0 (Z.of_nat n)) k (seqZ 0 (Z.of_nat n)).
Proof.
  split; [rewrite length_seqZ, Nat2Z.id; reflexivity|].
  intros i pi pk x y Hi Hx Hk Hy.
  apply lookup_seqZ in Hi, Hx, Hk, Hy.
  split; intros Hlt; apply Z.ltb_ge; lia.
Qed.

Lemma preprocess_fixes_signal_length_witness :
  Demo.load Demo.half_second = Ok (Demo.half_second, 22050) /\
  2 * Z.of_nat (length Demo.half_second) = SAMPLES_TO_CONSIDER /\
  Z.of_nat (length (fix_signal_length 0 Demo.half_second)) = SAMPLES_TO_CONSIDER /\
  take (length Demo.half_second) (fix_signal_length 0 Demo.half_second)
    = Demo.half_second /\
  drop (length Demo.half_second) (fix_signal_length 0 Demo.half_second)
    = replicate (length Demo.half_second) 0.
Proof.
  assert (Hload : Demo.load Demo.half_second = Ok (Demo.half_second, 22050))
    by reflexivity.
  assert (Hhalf : 2 * Z.of_nat (length Demo.half_second) = SAMPLES_TO_CONSIDER).
  { unfold Demo.half_second, SAMPLES_TO_CONSIDER. rewrite length_replicate. lia. }
  destruct (@preprocess_fixes_signal_length Z 0 Demo.load Demo.mfcc
              Demo.half_second Demo.half_second 22050 13 2048 512 Hload)
    as [_ [_ [Hlen [_ [_ Hpad]]]]].
  destruct (Hpad Hhalf) as [Htake Hdrop].
  repeat split; assumption.
Defined.

Lemma demo_mfcc_frames (y : list Z) (sr : Z) :
  Z.of_nat (length y) = SAMPLES_TO_CONSIDER ->
  nd_shape (Demo.mfcc y sr 13 2048 512)
    = [13%nat; Z.to_nat (stft_frame_count SAMPLES_TO_CONSIDER 2048 512)] /\
  nd_wf (Demo.mfcc y sr 13 2048 512).
Proof.
  intros Hlen. split; [|apply demo_mfcc_wf].
  rewrite demo_mfcc_shape, Hlen. reflexivity.
Qed.

Lemma preprocess_fixed_shape_witness :
  exists M : ndarray Z,
    preprocess 0 Demo.load Demo.mfcc [1; 2; 3] 13 2048 512 = Ok M /\
    nd_shape M = [Z.to_nat (stft_frame_count SAMPLES_TO_CONSIDER 2048 512); 13%nat] /\
    nd_shape M = [44; 13]%nat /\
    nd_wf M /\
    forall t c : nat,
      nd_get M [t; c]
      = nd_get (Demo.mfcc (fix_signal_length 0 [1; 2; 3]) 22050 13 2048 512) [c; t].
Proof.
  apply (@preprocess_fixed_shape Z 0 Demo.load Demo.mfcc demo_mfcc_frames
           [1; 2; 3] [1; 2; 3] 22050).
  reflexivity.
Defined.

Lemma CNN_predict_model_input_witness :
  let M := nd_T (Demo.mfcc (fix_signal_length 0 [1; 2; 3]) 22050 13 2048 512) in
  CNN_predict 0 Z.ltb Demo.load Demo.mfcc Demo.model [1; 2; 3]
    = (let* predictions := Demo.model (nd_newaxis_ends M) in
       let* predicted_index := np_argmax Z.ltb predictions in
       let* predicted_keyword := np_getitem mapping (Z.of_nat predicted_index) in
       Ok (predicted_keyword, nd_flatten predictions)) /\
  nd_shape (nd_newaxis_ends M) = [1; 44; 13; 1]%nat /\
  nd_data (nd_newaxis_ends M) = nd_data M /\
  forall t c : nat, nd_get (nd_newaxis_ends M) [0; t; c; 0]%nat = nd_get M [t; c].
Proof.
  intros M.
  apply (@CNN_predict_model_input Z 0 Z.ltb Demo.load Demo.mfcc Demo.model
           [1; 2; 3] M 44 13).
  - apply (demo_preprocess 1 [2; 3]).
  - apply (demo_preprocess 1 [2; 3]).
Defined.

Lemma CNN_predict_argmax_label_witness :
  exists (i : nat) (predicted_keyword : string) (m : Z),
    CNN_predict 0 Z.ltb Demo.load Demo.mfcc Demo.model [1; 2; 3]
      = Ok (predicted_keyword, seqZ 0 35) /\
    length (seqZ 0 35) = length mapping /\
    length mapping = 35%nat /\
    mapping !! i = Some predicted_keyword /\
    seqZ 0 35 !! i = Some m /\
    (forall j x, seqZ 0 35 !! j = Some x -> (m <? x) = false) /\
    (forall j x, (j < i)%nat -> seqZ 0 35 !! j = Some x -> (x <? m) = true).
Proof.
  apply (@CNN_predict_argmax_label Z 0 Z.ltb Demo.load Demo.mfcc Demo.model
           Z.ltb_irrefl Z_ltb_trans Z_ltb_negtrans
           [1; 2; 3]
           (nd_T (Demo.mfcc (fix_signal_length 0 [1; 2; 3]) 22050 13 2048 512))
           (mk_ndarray [1; 35]%nat (seqZ 0 35))).
  - apply (demo_preprocess 1 [2; 3]).
  - apply demo_model. apply (demo_preprocess 1 [2; 3]).
  - reflexivity.
  - reflexivity.
Defined.

Lemma create_visualization_top_confidences_witness :
  exists rows : list (string * Z),
    create_visualization 0 Z.ltb Demo.load Demo.mfcc Demo.model Demo.argpartition
        [1; 2; 3]
      = ([st_markdown (heard_text "four");
          st_write (mk_Chart rows "confidence" "keyword" "-x")], Ok tt) /\
    length rows = 10%nat /\
    NoDup (py_last 10 (seqZ 0 35)) /\
    Forall2 (fun z row => mapping !! Z.to_nat z = Some (fst row) /\
                          seqZ 0 35 !! Z.to_nat z = Some (snd row))
            (py_last 10 (seqZ 0 35)) rows /\
    (forall z, z ∈ py_last 10 (seqZ 0 35) -> 0 <= z) /\
    (forall i j x y,
       i ∈ py_last 10 (seqZ 0 35) -> j ∉ py_last 10 (seqZ 0 35) -> 0 <= j ->
       seqZ 0 35 !! Z.to_nat i = Some x -> seqZ 0 35 !! Z.to_nat j = Some y ->
       (x <? y) = false) /\
    (forall i0 i x0 x,
       head (py_last 10 (seqZ 0 35)) = Some i0 -> i ∈ py_last 10 (seqZ 0 35) ->
       seqZ 0 35 !! Z.to_nat i0 = Some x0 -> seqZ 0 35 !! Z.to_nat i = Some x ->
       (x <? x0) = false).
Proof.
  apply (@create_visualization_top_confidences Z 0 Z.ltb Demo.load Demo.mfcc
           Demo.model Demo.argpartition Z.ltb_irrefl Z_ltb_negtrans
           [1; 2; 3] "four"%string (seqZ 0 35) (seqZ 0 35)).
  - apply demo_CNN_predict.
  - reflexivity.
  - reflexivity.
  - apply (partitioned_at_ascending 35 25).
Defined.

(** C4 as stated fails.  On the instance the ten rows written to the chart
    are in ascending order of confidence; and on these 35 distinct
    confidences no result that [np.argpartition] may return gives rows in
    descending order, since its first kept index holds the least of the ten. *)
Lemma create_visualization_rows_not_descending :
  create_visualization 0 Z.ltb Demo.load Demo.mfcc Demo.model Demo.argpartition
      [1; 2; 3]
    = ([st_markdown (heard_text "four");
        st_write
          (mk_Chart
             [("two", 25); ("house", 26); ("down", 27); ("six", 28); ("yes", 29);
              ("on", 30); ("five", 31); ("forward", 32); ("off", 33);
              ("four", 34)]%string
             "confidence" "keyword" "-x")], Ok tt) /\
  descending Z.ltb
    [("two", 25); ("house", 26); ("down", 27); ("six", 28); ("yes", 29);
     ("on", 30); ("five", 31); ("forward", 32); ("off", 33); ("four", 34)]%string
    = false /\
  (forall (np_argpartition : list Z -> Z -> result (list Z)) (part : list Z)
          (rows : list (string * Z)),
     np_argpartition (seqZ 0 35) (- 10) = Ok part ->
     partitioned_at Z.ltb (seqZ 0 35) 25 part ->
     top_confidences np_argpartition (seqZ 0 35) = Ok rows ->
     descending Z.ltb rows = false).
Proof.
  split; [|split; [reflexivity|]].
  - unfold create_visualization. rewrite (demo_CNN_predict 1 [2; 3]). reflexivity.
  - intros ap part rows Hap Hord Htop.
    destruct (top_confidences_rows Z.ltb ap Z.ltb_irrefl Z_ltb_negtrans
                (seqZ 0 35) part eq_refl Hap Hord)
      as [rows' [Htop' [Hlen [Hnd [HF [Hnn [_ Hmin]]]]]]].
    rewrite Htop in Htop'. injection Htop' as <-.
    destruct (py_last 10 part) as [|i1 [|i2 ind]].
    + inversion HF; subst. discriminate.
    + inversion HF as [|? r1 ? rows1 _ HF1]; subst.
      inversion HF1; subst. discriminate.
    + inversion HF as [|? r1 ? rows1 [_ Hc1] HF1]; subst.
      inversion HF1 as [|? r2 ? rows2 [_ Hc2] HF2]; subst.
      assert (Hle : (snd r2 <? snd r1) = false).
      { apply (Hmin i1 i2); [reflexivity| |assumption|assumption].
        right. left. }
      assert (H1 : 0 <= i1) by (apply Hnn; left).
      assert (H2 : 0 <= i2) by (apply Hnn; right; left).
      assert (Hne : i1 <> i2).
      { apply NoDup_cons in Hnd as [Hnotin _]. intros ->. apply Hnotin. left. }
      apply lookup_seqZ in Hc1, Hc2. apply Z.ltb_ge in Hle.
      assert (Hlt : (snd r1 <? snd r2) = true) by (apply Z.ltb_lt; lia).
      cbn [descending]. rewrite Hlt. reflexivity.
Qed.



(** ** Sample Reconstructor: every outcome *)

Lemma mapM_result_Ok_inv {A B : Type} (f : A -> result B) (l : list A) (ys : list B) :
  mapM_result f l = Ok ys -> Forall2 (fun x y => f x = Ok y) l ys.
Proof.
  revert ys. induction l as [|x l IH]; intros ys H; cbn [mapM_result] in H.
  - injection H as <-. constructor.
  - destruct (f x) as [y|e] eqn:Hfx; cbn [rbind] in H; [|discriminate].
    destruct (mapM_result f l) as [zs|e]; cbn [rbind] in H; [|discriminate].
    injection H as <-. constructor; [exact Hfx|]. apply IH. reflexivity.
Qed.

Lemma mapM_result_Raise_inv {A B : Type} (f : A -> result B) (l : list A) (e : exn) :
  mapM_result f l = Raise e -> exists x, x ∈ l /\ f x = Raise e.
Proof.
  induction l as [|x l IH]; intros H; cbn [mapM_result] in H; [discriminate|].
  destruct (f x) as [y|e'] eqn:Hfx; cbn [rbind] in H.
  - destruct (mapM_result f l) as [zs|e']; cbn [rbind] in H; [discriminate|].
    destruct IH as [x' [Hin Hx']]; [exact H|].
    exists x'. split; [right; exact Hin|exact Hx'].
  - injection H as ->. exists x. split; [left|exact Hfx].
Qed.

Lemma mapM_result_Forall2_Ok {A B : Type} (f : A -> result B) (l : list A) (ys : list B) :
  Forall2 (fun x y => f x = Ok y) l ys -> mapM_result f l = Ok ys.
Proof.
  induction 1 as [|x y l ys Hxy _ IH]; [reflexivity|].
  cbn [mapM_result]. rewrite Hxy. cbn [rbind]. rewrite IH. reflexivity.
Qed.

(** An index in [-n, n) reads position [i mod n]; any other index raises
    [IndexError]. *)
Lemma np_getitem_Ok_iff {A : Type} (a : list A) (i : Z) (x : A) :
  np_getitem a i = Ok x <->
  - Z.of_nat (length a) <= i < Z.of_nat (length a) /\
  a !! Z.to_nat (i mod Z.of_nat (length a)) = Some x.
Proof.
  unfold np_getitem.
  set (n := Z.of_nat (length a)).
  destruct (Z.ltb_spec i 0) as [Hneg|Hpos].
  - destruct (Z.leb_spec 0 (i + n)) as [Hlo|Hlo];
      destruct (Z.ltb_spec (i + n) n) as [Hhi|Hhi]; cbn [andb];
      try (split; [discriminate|intros [Hr _]; lia]).
    assert (Hmod : i mod n = i + n).
    { symmetry. apply (Z.mod_unique_pos i n (-1) (i + n)); lia. }
    rewrite Hmod.
    destruct (a !! Z.to_nat (i + n)) as [y|] eqn:Hy.
    + split; [intros [= ->]; split; [lia|reflexivity]|intros [_ [= ->]]; reflexivity].
    + split; [discriminate|intros [_ H]; discriminate].
  - destruct (Z.leb_spec 0 i) as [Hlo|Hlo]; [|lia].
    destruct (Z.ltb_spec i n) as [Hhi|Hhi]; cbn [andb];
      try (split; [discriminate|intros [Hr _]; lia]).
    rewrite Z.mod_small by lia.
    destruct (a !! Z.to_nat i) as [y|] eqn:Hy.
    + split; [intros [= ->]; split; [lia|reflexivity]|intros [_ [= ->]]; reflexivity].
    + split; [discriminate|intros [_ H]; discriminate].
Qed.

Lemma np_getitem_in_bounds {A : Type} (a : list A) (i : Z) :
  - Z.of_nat (length a) <= i < Z.of_nat (length a) ->
  exists x, np_getitem a i = Ok x.
Proof.
  intros Hi.
  destruct (lookup_lt_is_Some_2 a (Z.to_nat (i mod Z.of_nat (length a)))) as [x Hx].
  { assert (0 <= i mod Z.of_nat (length a) < Z.of_nat (length a))
      by (apply Z.mod_pos_bound; lia). lia. }
  exists x. apply np_getitem_Ok_iff. split; assumption.
Qed.

Lemma np_getitem_Raise_iff {A : Type} (a : list A) (i : Z) (e : exn) :
  np_getitem a i = Raise e <->
  e = IndexError /\ ~ (- Z.of_nat (length a) <= i < Z.of_nat (length a)).
Proof.
  split.
  - intros H. split; [apply (np_getitem_raise a i e H)|].
    intros Hi. destruct (np_getitem_in_bounds a i Hi) as [x Hx]. congruence.
  - intros [-> Hout]. destruct (np_getitem a i) as [x|e] eqn:H.
    + apply np_getitem_Ok_iff in H as [Hi _]. contradiction.
    + f_equal. apply (np_getitem_raise a i e H).
Qed.

Lemma to_bytes1_Ok_iff (v b : Z) : to_bytes1 v = Ok b <-> b = v /\ 0 <= v < 256.
Proof.
  unfold to_bytes1.
  destruct (Z.leb_spec 0 v); destruct (Z.ltb_spec v 256); cbn [andb];
    try (split; [discriminate|intros [_ ?]; lia]).
  split; [intros [= <-]; split; [reflexivity|lia]|intros [-> _]; reflexivity].
Qed.

Lemma to_bytes1_Raise_iff (v : Z) (e : exn) :
  to_bytes1 v = Raise e <-> e = OverflowError /\ ~ (0 <= v < 256).
Proof.
  unfold to_bytes1.
  destruct (Z.leb_spec 0 v); destruct (Z.ltb_spec v 256); cbn [andb];
    try (split; [intros [= <-]; split; [reflexivity|lia]|intros [-> _]; reflexivity]).
  split; [discriminate|intros [_ ?]; lia].
Qed.

Lemma retrieve_recording_nonempty (arr : SparseSampleMap) :
  arr <> [] ->
  retrieve_recording arr
  = (let* sorted_ints := np_take (map snd arr) (map fst arr) in
     mapM_result to_bytes1 sorted_ints).
Proof. destruct arr; [congruence|reflexivity]. Qed.

Lemma np_take_total {A : Type} (a : list A) (ind : list Z) :
  (forall k, k ∈ ind -> - Z.of_nat (length a) <= k < Z.of_nat (length a)) ->
  exists xs, np_take a ind = Ok xs.
Proof.
  unfold np_take. induction ind as [|k ind IH]; intros Hin; [exists []; reflexivity|].
  destruct (np_getitem_in_bounds a k) as [x Hx]; [apply Hin; left|].
  destruct IH as [xs Hxs]; [intros k' Hk'; apply Hin; right; exact Hk'|].
  exists (x :: xs). cbn [mapM_result]. rewrite Hx. cbn [rbind]. rewrite Hxs. reflexivity.
Qed.

(** What a successful reconstruction holds: as many bytes as entries, byte
    [i] being the value at insertion position [ind[i] mod n]. *)
Lemma retrieve_recording_positions (arr : SparseSampleMap) :
  arr <> [] ->
  (forall k, k ∈ map fst arr ->
             - Z.of_nat (length arr) <= k < Z.of_nat (length arr)) ->
  (forall v, v ∈ map snd arr -> 0 <= v < 256) ->
  exists bytes : list Z,
    retrieve_recording arr = Ok bytes /\
    length bytes = length arr /\
    (forall b, b ∈ bytes -> b ∈ map snd arr) /\
    forall (i : nat) (k : Z),
      map fst arr !! i = Some k ->
      bytes !! i = map snd arr !! Z.to_nat (k mod Z.of_nat (length arr)).
Proof.
  intros Hne Hkeys Hvals.
  assert (Hlv : length (map snd arr) = length arr) by apply length_map.
  destruct (np_take_total (map snd arr) (map fst arr)) as [xs Hxs].
  { intros k Hk. rewrite Hlv. apply Hkeys. exact Hk. }
  pose proof (mapM_result_Ok_inv _ _ _ Hxs) as HF.
  assert (Hsub : forall x, x ∈ xs -> x ∈ map snd arr).
  { intros x Hx. apply list_elem_of_lookup_1 in Hx as [i Hi].
    destruct (Forall2_lookup_r _ _ _ _ _ HF Hi) as [k [_ Hk]].
    apply np_getitem_Ok_iff in Hk as [_ Hk].
    apply list_elem_of_lookup_2 in Hk. exact Hk. }
  exists xs. split; [|split; [|split]].
  - rewrite (retrieve_recording_nonempty arr Hne), Hxs. cbn [rbind].
    apply mapM_to_bytes1_in_range. apply Forall_forall.
    intros x Hx. apply Hvals, Hsub, Hx.
  - apply Forall2_length in HF. rewrite <- HF. apply length_map.
  - exact Hsub.
  - intros i k Hi.
    destruct (Forall2_lookup_l _ _ _ _ _ HF Hi) as [x [Hx Hk]].
    apply np_getitem_Ok_iff in Hk as [_ Hk]. rewrite Hlv in Hk.
    rewrite Hx, Hk. reflexivity.
Qed.

(** For a non-empty dictionary whose indices lie in [-n, n) and whose values
    are bytes, the reconstruction succeeds with one byte per entry, each taken
    from the values: byte [i] is the value at insertion position
    [ind[i] mod n] (a negative index counts from the end). *)
Theorem retrieve_recording_reads_by_position (arr : SparseSampleMap) :
  arr <> [] ->
  (forall k, k ∈ map fst arr ->
             - Z.of_nat (length arr) <= k < Z.of_nat (length arr)) ->
  (forall v, v ∈ map snd arr -> 0 <= v < 256) ->
  exists bytes : list Z,
    retrieve_recording arr = Ok bytes /\
    length bytes = length arr /\
    (forall b, b ∈ bytes -> b ∈ map snd arr) /\
    forall (i : nat) (k : Z),
      map fst arr !! i = Some k ->
      bytes !! i = map snd arr !! Z.to_nat (k mod Z.of_nat (length arr)).
Proof. exact (retrieve_recording_positions arr). Qed.

Lemma retrieve_recording_reads_by_position_witness :
  exists bytes : list Z,
    retrieve_recording [(1, 7); (-1, 8); (0, 9)] = Ok bytes /\
    length bytes = 3%nat /\
    (forall b, b ∈ bytes -> b ∈ [7; 8; 9]) /\
    forall (i : nat) (k : Z),
      [1; -1; 0] !! i = Some k -> bytes !! i = [7; 8; 9] !! Z.to_nat (k mod 3).
Proof.
  apply (retrieve_recording_reads_by_position [(1, 7); (-1, 8); (0, 9)]).
  - discriminate.
  - intros k Hk. cbn in Hk |- *.
    repeat (apply elem_of_cons in Hk as [->|Hk]; [lia|]).
    apply elem_of_nil in Hk. destruct Hk.
  - intros v Hv. cbn in Hv.
    repeat (apply elem_of_cons in Hv as [->|Hv]; [lia|]).
    apply elem_of_nil in Hv. destruct Hv.
Defined.

(** The exceptions of the steps around [val[ind]], once the indices are
    64-bit integers: [ValueError] for the empty dictionary only; [IndexError]
    when some index is outside [-n, n), whatever the values; [OverflowError]
    when every index is inside and a value that is read is not a byte. *)
Lemma retrieve_recording_errors (arr : SparseSampleMap) :
  (retrieve_recording arr = Raise ValueError <-> arr = []) /\
  (retrieve_recording arr = Raise IndexError <->
     arr <> [] /\
     exists k, k ∈ map fst arr /\
               ~ (- Z.of_nat (length arr) <= k < Z.of_nat (length arr))) /\
  (retrieve_recording arr = Raise OverflowError <->
     arr <> [] /\
     (forall k, k ∈ map fst arr ->
                - Z.of_nat (length arr) <= k < Z.of_nat (length arr)) /\
     exists k v, k ∈ map fst arr /\
                 map snd arr !! Z.to_nat (k mod Z.of_nat (length arr)) = Some v /\
                 ~ (0 <= v < 256)) /\
  (forall origin, retrieve_recording arr <> Raise (ExternalError origin)).
Proof.
  destruct (decide (arr = [])) as [->|Hne].
  { cbn. repeat split; try congruence; try discriminate.
    - intros [H _]. congruence.
    - intros [H _]. congruence. }
  assert (Hlv : length (map snd arr) = length arr) by apply length_map.
  rewrite (retrieve_recording_nonempty arr Hne).
  destruct (np_take (map snd arr) (map fst arr)) as [xs|e] eqn:Ht; cbn [rbind].
  - pose proof (mapM_result_Ok_inv _ _ _ Ht) as HF.
    assert (Hin : forall k, k ∈ map fst arr ->
                    - Z.of_nat (length arr) <= k < Z.of_nat (length arr)).
    { intros k Hk. apply list_elem_of_lookup_1 in Hk as [i Hi].
      destruct (Forall2_lookup_l _ _ _ _ _ HF Hi) as [x [_ Hx]].
      apply np_getitem_Ok_iff in Hx as [Hx _]. rewrite Hlv in Hx. exact Hx. }
    destruct (mapM_result to_bytes1 xs) as [bs|e] eqn:Hb.
    + pose proof (mapM_result_Ok_inv _ _ _ Hb) as HB.
      split; [split; [discriminate|congruence]|].
      split; [split; [discriminate|intros [_ [k [Hk Hout]]]; exfalso; apply Hout, Hin, Hk]|].
      split; [|discriminate].
      split; [discriminate|].
      intros [_ [_ [k [v [Hk [Hv Hbad]]]]]]. exfalso. apply Hbad.
      apply list_elem_of_lookup_1 in Hk as [i Hi].
      destruct (Forall2_lookup_l _ _ _ _ _ HF Hi) as [x [Hx Hget]].
      apply np_getitem_Ok_iff in Hget as [_ Hget]. rewrite Hlv, Hv in Hget.
      injection Hget as <-.
      destruct (Forall2_lookup_l _ _ _ _ _ HB Hx) as [b [_ Hvb]].
      apply to_bytes1_Ok_iff in Hvb as [_ Hvb]. exact Hvb.
    + apply mapM_result_Raise_inv in Hb as [x [Hx Hxe]].
      apply to_bytes1_Raise_iff in Hxe as [-> Hbad].
      split; [split; [discriminate|congruence]|].
      split; [split; [discriminate|intros [_ [k [Hk Hout]]]; exfalso; apply Hout, Hin, Hk]|].
      split; [|discriminate].
      split; [|reflexivity].
      intros _. split; [exact Hne|]. split; [exact Hin|].
      apply list_elem_of_lookup_1 in Hx as [i Hi].
      destruct (Forall2_lookup_r _ _ _ _ _ HF Hi) as [k [Hk Hget]].
      apply np_getitem_Ok_iff in Hget as [_ Hget]. rewrite Hlv in Hget.
      exists k, x. split; [|split; assumption].
      apply list_elem_of_lookup_2 in Hk. exact Hk.
  - apply mapM_result_Raise_inv in Ht as [k [Hk Hke]].
    apply np_getitem_Raise_iff in Hke as [-> Hout]. rewrite Hlv in Hout.
    split; [split; [discriminate|congruence]|].
    split.
    { split; [|reflexivity]. intros _. split; [exact Hne|]. exists k. split; assumption. }
    split; [|discriminate].
    split; [discriminate|].
    intros [_ [Hin _]]. exfalso. apply Hout, Hin, Hk.
Qed.

(** When the indices are 0, ..., n-1 in any insertion order and the values
    are bytes, the reconstruction succeeds and its bytes are the values
    rearranged: no sample is lost and none is repeated. *)
Theorem retrieve_recording_rearranges (arr : SparseSampleMap) :
  arr <> [] ->
  map fst arr ≡ₚ seqZ 0 (Z.of_nat (length arr)) ->
  (forall v, v ∈ map snd arr -> 0 <= v < 256) ->
  exists bytes : list Z,
    retrieve_recording arr = Ok bytes /\ bytes ≡ₚ map snd arr.
Proof.
  intros Hne Hperm Hvals.
  assert (Hin : forall k, k ∈ map fst arr -> 0 <= k < Z.of_nat (length arr)).
  { intros k Hk. rewrite Hperm in Hk. apply elem_of_seqZ in Hk. lia. }
  destruct (retrieve_recording_positions arr Hne) as [bytes [Hok [Hlen [_ Hpos]]]];
    [intros k Hk; apply Hin in Hk; lia|exact Hvals|].
  exists bytes. split; [exact Hok|].
  assert (Hlv : length (map snd arr) = length arr) by apply length_map.
  assert (Hlk : length (map fst arr) = length arr) by apply length_map.
  set (f := fun k : Z => default 0 (map snd arr !! Z.to_nat k)).
  assert (Hbytes : bytes = f <$> map fst arr).
  { apply list_eq. intros i. rewrite list_lookup_fmap.
    destruct (map fst arr !! i) as [k|] eqn:Hk.
    - rewrite (Hpos i k Hk).
      assert (Hk' : 0 <= k < Z.of_nat (length arr))
        by (apply Hin; apply list_elem_of_lookup_2 in Hk; exact Hk).
      rewrite Z.mod_small by lia.
      destruct (lookup_lt_is_Some_2 (map snd arr) (Z.to_nat k)) as [v Hv]; [lia|].
      cbn. unfold f. rewrite Hv. reflexivity.
    - apply lookup_ge_None in Hk. apply lookup_ge_None. lia. }
  assert (Hvals_eq : f <$> seqZ 0 (Z.of_nat (length arr)) = map snd arr).
  { apply list_eq. intros i. rewrite list_lookup_fmap.
    destruct (Nat.lt_ge_cases i (length arr)) as [Hlt|Hge].
    - rewrite lookup_seqZ_lt by lia. cbn. unfold f.
      rewrite Z.add_0_l, Nat2Z.id.
      destruct (lookup_lt_is_Some_2 (map snd arr) i) as [v Hv]; [lia|].
      rewrite Hv. reflexivity.
    - rewrite lookup_seqZ_ge by lia. cbn. symmetry. apply lookup_ge_None. lia. }
  rewrite Hbytes, <- Hvals_eq. apply fmap_Permutation. exact Hperm.
Qed.

Lemma retrieve_recording_rearranges_witness :
  exists bytes : list Z,
    retrieve_recording [(2, 5); (0, 1); (1, 3)] = Ok bytes /\ bytes ≡ₚ [5; 1; 3].
Proof.
  apply (retrieve_recording_rearranges [(2, 5); (0, 1); (1, 3)]).
  - discriminate.
  - cbn. change (seqZ 0 3) with [0; 1; 2].
    apply (Permutation_cons_append [0; 1] 2).
  - intros v Hv. cbn in Hv.
    repeat (apply elem_of_cons in Hv as [->|Hv]; [lia|]).
    apply elem_of_nil in Hv. destruct Hv.
Defined.

(** ** The fixed-length signal, sample by sample *)

Section SignalFacts.

Context {flt : Type}.
Variable zero : flt.
Variable flt_ltb : flt -> flt -> bool.
Variable librosa_load : list Z -> result (list flt * Z).
Variable librosa_mfcc : list flt -> Z -> Z -> Z -> Z -> ndarray flt.
Variable model_predict : ndarray flt -> result (ndarray flt).
Variable np_argpartition : list flt -> Z -> result (list Z).

Lemma fix_signal_length_lookup (signal : list flt) (i : nat) :
  fix_signal_length zero signal !! i
  = if decide (Z.of_nat i < SAMPLES_TO_CONSIDER)
    then Some (default zero (signal !! i))
    else None.
Proof.
  unfold fix_signal_length, SAMPLES_TO_CONSIDER.
  destruct (Z.geb_spec (Z.of_nat (length signal)) 22050) as [Hge|Hlt];
    destruct (decide (Z.of_nat i < 22050)) as [Hi|Hi].
  - rewrite lookup_take_lt by lia.
    destruct (lookup_lt_is_Some_2 signal i) as [x Hx]; [lia|].
    rewrite Hx. reflexivity.
  - apply lookup_take_ge. lia.
  - destruct (Nat.lt_ge_cases i (length signal)) as [Hin|Hout].
    + rewrite lookup_app_l by exact Hin.
      destruct (lookup_lt_is_Some_2 signal i Hin) as [x Hx].
      rewrite Hx. reflexivity.
    + rewrite lookup_app_r by exact Hout.
      rewrite lookup_replicate_2 by lia.
      rewrite (lookup_ge_None_2 signal i Hout). reflexivity.
  - apply lookup_ge_None_2. rewrite length_app, length_replicate. lia.
Qed.

(** Sample [i] of the fixed-length signal is sample [i] of the decoded one
    when it has one and zero otherwise, for [i] below 22050, and there is no
    sample from 22050 on; fixing the length twice changes nothing more. *)
Theorem fix_signal_length_samples (signal : list flt) :
  (forall i : nat,
     fix_signal_length zero signal !! i
     = if decide (Z.of_nat i < SAMPLES_TO_CONSIDER)
       then Some (default zero (signal !! i))
       else None) /\
  fix_signal_length zero (fix_signal_length zero signal)
  = fix_signal_length zero signal.
Proof.
  split; [apply fix_signal_length_lookup|].
  apply list_eq. intros i. rewrite !fix_signal_length_lookup.
  destruct (decide (Z.of_nat i < SAMPLES_TO_CONSIDER)); reflexivity.
Qed.

Lemma fix_signal_length_ext (s1 s2 : list flt) :
  (forall i : nat, Z.of_nat i < SAMPLES_TO_CONSIDER ->
                   default zero (s1 !! i) = default zero (s2 !! i)) ->
  fix_signal_length zero s1 = fix_signal_length zero s2.
Proof.
  intros H. apply list_eq. intros i. rewrite !fix_signal_length_lookup.
  destruct (decide (Z.of_nat i < SAMPLES_TO_CONSIDER)) as [Hi|Hi]; [|reflexivity].
  rewrite (H i Hi). reflexivity.
Qed.

Lemma pipeline_same_signal (file1 file2 : list Z) (s1 s2 : list flt) (sr : Z) :
  librosa_load file1 = Ok (s1, sr) ->
  librosa_load file2 = Ok (s2, sr) ->
  fix_signal_length zero s1 = fix_signal_length zero s2 ->
  (forall num_mfcc n_fft hop_length,
     preprocess zero librosa_load librosa_mfcc file1 num_mfcc n_fft hop_length
     = preprocess zero librosa_load librosa_mfcc file2 num_mfcc n_fft hop_length) /\
  CNN_predict zero flt_ltb librosa_load librosa_mfcc model_predict file1
  = CNN_predict zero flt_ltb librosa_load librosa_mfcc model_predict file2 /\
  create_visualization zero flt_ltb librosa_load librosa_mfcc model_predict
      np_argpartition file1
  = create_visualization zero flt_ltb librosa_load librosa_mfcc model_predict
      np_argpartition file2.
Proof.
  intros H1 H2 Hfix.
  assert (Hpre : forall num_mfcc n_fft hop_length,
     preprocess zero librosa_load librosa_mfcc file1 num_mfcc n_fft hop_length
     = preprocess zero librosa_load librosa_mfcc file2 num_mfcc n_fft hop_length).
  { intros. unfold preprocess. rewrite H1, H2. cbn [rbind]. rewrite Hfix. reflexivity. }
  assert (Hcnn :
     CNN_predict zero flt_ltb librosa_load librosa_mfcc model_predict file1
     = CNN_predict zero flt_ltb librosa_load librosa_mfcc model_predict file2).
  { unfold CNN_predict. rewrite Hpre. reflexivity. }
  split; [exact Hpre|]. split; [exact Hcnn|].
  unfold create_visualization. rewrite Hcnn. reflexivity.
Qed.

(** Two decodable buffers that agree on their first 22050 samples (and on
    the sample rate) get the same features, the same prediction and the same
    page output: what follows the first 22050 samples is never looked at. *)
Theorem prediction_ignores_samples_after_window
    (file1 file2 : list Z) (s1 s2 : list flt) (sr : Z) :
  librosa_load file1 = Ok (s1, sr) ->
  librosa_load file2 = Ok (s2, sr) ->
  take (Z.to_nat SAMPLES_TO_CONSIDER) s1 = take (Z.to_nat SAMPLES_TO_CONSIDER) s2 ->
  (forall num_mfcc n_fft hop_length,
     preprocess zero librosa_load librosa_mfcc file1 num_mfcc n_fft hop_length
     = preprocess zero librosa_load librosa_mfcc file2 num_mfcc n_fft hop_length) /\
  CNN_predict zero flt_ltb librosa_load librosa_mfcc model_predict file1
  = CNN_predict zero flt_ltb librosa_load librosa_mfcc model_predict file2 /\
  create_visualization zero flt_ltb librosa_load librosa_mfcc model_predict
      np_argpartition file1
  = create_visualization zero flt_ltb librosa_load librosa_mfcc model_predict
      np_argpartition file2.
Proof.
  intros H1 H2 Htake. apply (pipeline_same_signal file1 file2 s1 s2 sr H1 H2).
  apply fix_signal_length_ext. intros i Hi.
  rewrite <- (lookup_take_lt s1 (Z.to_nat SAMPLES_TO_CONSIDER) i) by lia.
  rewrite <- (lookup_take_lt s2 (Z.to_nat SAMPLES_TO_CONSIDER) i) by lia.
  rewrite Htake. reflexivity.
Qed.

(** Silence appended to a recording changes nothing: a buffer whose signal
    is another one's followed by zeros gets the same features, prediction and
    page output. *)
Theorem prediction_ignores_trailing_zeros
    (file1 file2 : list Z) (signal : list flt) (k : nat) (sr : Z) :
  librosa_load file1 = Ok (signal, sr) ->
  librosa_load file2 = Ok (signal ++ replicate k zero, sr) ->
  (forall num_mfcc n_fft hop_length,
     preprocess zero librosa_load librosa_mfcc file1 num_mfcc n_fft hop_length
     = preprocess zero librosa_load librosa_mfcc file2 num_mfcc n_fft hop_length) /\
  CNN_predict zero flt_ltb librosa_load librosa_mfcc model_predict file1
  = CNN_predict zero flt_ltb librosa_load librosa_mfcc model_predict file2 /\
  create_visualization zero flt_ltb librosa_load librosa_mfcc model_predict
      np_argpartition file1
  = create_visualization zero flt_ltb librosa_load librosa_mfcc model_predict
      np_argpartition file2.
Proof.
  intros H1 H2.
  apply (pipeline_same_signal file1 file2 signal (signal ++ replicate k zero) sr H1 H2).
  apply fix_signal_length_ext. intros i _.
  destruct (Nat.lt_ge_cases i (length signal)) as [Hin|Hout].
  - rewrite lookup_app_l by exact Hin. reflexivity.
  - rewrite lookup_app_r by exact Hout.
    rewrite (lookup_ge_None_2 signal i Hout).
    destruct (replicate k zero !! (i - length signal)%nat) as [x|] eqn:Hx;
      [|reflexivity].
    apply lookup_replicate in Hx as [-> _]. reflexivity.
Qed.

End SignalFacts.

(** ** Classifier Wrapper and Prediction Orchestrator: every outcome *)

Section Outcomes.

Context {flt : Type}.
Variable zero : flt.
Variable flt_ltb : flt -> flt -> bool.
Variable librosa_load : list Z -> result (list flt * Z).
Variable librosa_mfcc : list flt -> Z -> Z -> Z -> Z -> ndarray flt.
Variable model_predict : ndarray flt -> result (ndarray flt).
Variable np_argpartition : list flt -> Z -> result (list Z).

Lemma argmax_from_bound (l : list flt) (best : flt) (best_i i : nat) :
  (best_i < i)%nat ->
  (argmax_from flt_ltb best best_i i l < i + length l)%nat.
Proof.
  revert best best_i i. induction l as [|x l IH]; intros best best_i i Hlt.
  - cbn. lia.
  - cbn [argmax_from length]. destruct (flt_ltb best x).
    + specialize (IH x i (S i)). lia.
    + specialize (IH best best_i (S i)). lia.
Qed.

(** [CNN_predict] does not look at the shape of the model's answer.  An
    empty answer raises [ValueError]; otherwise the arg-max position [i] lies
    inside the answer, and the call returns [mapping[i]] with the flattened
    answer when [i] is below the number of labels and raises [IndexError]
    when it is not.  So every answer of 1 to 35 numbers, of any shape, gives a
    label of [mapping]. *)
Theorem CNN_predict_outcomes (file : list Z) (M predictions : ndarray flt) :
  preprocess zero librosa_load librosa_mfcc file 13 2048 512 = Ok M ->
  model_predict (nd_newaxis_ends M) = Ok predictions ->
  (nd_data predictions = [] ->
     CNN_predict zero flt_ltb librosa_load librosa_mfcc model_predict file
     = Raise ValueError) /\
  (nd_data predictions <> [] ->
     exists i : nat,
       np_argmax flt_ltb predictions = Ok i /\
       (i < length (nd_data predictions))%nat /\
       ((i < length mapping)%nat ->
          exists kw, mapping !! i = Some kw /\
            CNN_predict zero flt_ltb librosa_load librosa_mfcc model_predict file
            = Ok (kw, nd_data predictions)) /\
       ((length mapping <= i)%nat ->
          CNN_predict zero flt_ltb librosa_load librosa_mfcc model_predict file
          = Raise IndexError)) /\
  ((0 < length (nd_data predictions) <= length mapping)%nat ->
     exists kw, kw ∈ mapping /\
       CNN_predict zero flt_ltb librosa_load librosa_mfcc model_predict file
       = Ok (kw, nd_data predictions)).
Proof.
  intros Hpre Hmodel.
  assert (Hcnn :
    CNN_predict zero flt_ltb librosa_load librosa_mfcc model_predict file
    = (let* predicted_index := np_argmax flt_ltb predictions in
       let* predicted_keyword := np_getitem mapping (Z.of_nat predicted_index) in
       Ok (predicted_keyword, nd_flatten predictions))).
  { unfold CNN_predict. rewrite Hpre. cbn [rbind]. rewrite Hmodel. reflexivity. }
  assert (Hsome : nd_data predictions <> [] ->
     exists i : nat,
       np_argmax flt_ltb predictions = Ok i /\
       (i < length (nd_data predictions))%nat /\
       ((i < length mapping)%nat ->
          exists kw, mapping !! i = Some kw /\
            CNN_predict zero flt_ltb librosa_load librosa_mfcc model_predict file
            = Ok (kw, nd_data predictions)) /\
       ((length mapping <= i)%nat ->
          CNN_predict zero flt_ltb librosa_load librosa_mfcc model_predict file
          = Raise IndexError)).
  { intros Hne. unfold np_argmax in *.
    destruct (nd_data predictions) as [|x l] eqn:Hdata; [congruence|].
    exists (argmax_from flt_ltb x 0 1 l).
    pose proof (argmax_from_bound l x 0 1 ltac:(lia)) as Hb.
    split; [reflexivity|]. split; [cbn [length]; lia|]. split.
    - intros Hi. destruct (lookup_lt_is_Some_2 mapping _ Hi) as [kw Hkw].
      exists kw. split; [exact Hkw|].
      rewrite Hcnn. cbn [rbind].
      rewrite (np_getitem_in_range mapping _ kw) by (lia || (rewrite Nat2Z.id; exact Hkw)).
      cbn [rbind]. unfold nd_flatten. rewrite Hdata. reflexivity.
    - intros Hi. rewrite Hcnn. cbn [rbind].
      rewrite np_getitem_out_of_bounds by lia. reflexivity. }
  split; [|split; [exact Hsome|]].
  - intros Hnil. rewrite Hcnn. unfold np_argmax. rewrite Hnil. reflexivity.
  - intros [Hpos Hle].
    destruct Hsome as [i [_ [Hi [Hok _]]]].
    { intros Hnil. rewrite Hnil in Hpos. cbn in Hpos. lia. }
    destruct Hok as [kw [Hkw Hres]]; [lia|].
    exists kw. split; [|exact Hres].
    apply list_elem_of_lookup_2 in Hkw. exact Hkw.
Qed.

(** The rows of the data frame, whatever [np.argpartition] answers: at most
    ten, one per index of the last ten of its answer, each row holding the
    label and the confidence read at that same index. *)
Theorem top_confidences_rows_by_index
    (confidences : list flt) (rows : list (string * flt)) :
  top_confidences np_argpartition confidences = Ok rows ->
  exists part : list Z,
    np_argpartition confidences (- 10) = Ok part /\
    length rows = Nat.min 10 (length part) /\
    Forall2 (fun k row => np_getitem mapping k = Ok (fst row) /\
                          np_getitem confidences k = Ok (snd row))
            (py_last 10 part) rows /\
    (forall row, row ∈ rows -> fst row ∈ mapping /\ snd row ∈ confidences).
Proof.
  unfold top_confidences. cbv zeta. change (Z.opp 10) with (-10).
  change (Z.to_nat 10) with 10%nat. intros H.
  destruct (np_argpartition confidences (-10)) as [part|e]; cbn [rbind] in H;
    [|discriminate].
  destruct (np_take mapping (py_last 10 part)) as [kwrds|e] eqn:Hkw;
    cbn [rbind] in H; [|discriminate].
  destruct (np_take confidences (py_last 10 part)) as [confs|e] eqn:Hcf;
    cbn [rbind] in H; [|discriminate].
  injection H as <-.
  pose proof (mapM_result_Ok_inv _ _ _ Hkw) as Fkw.
  pose proof (mapM_result_Ok_inv _ _ _ Hcf) as Fcf.
  assert (HF : Forall2 (fun k row => np_getitem mapping k = Ok (fst row) /\
                                     np_getitem confidences k = Ok (snd row))
                 (py_last 10 part) (zip kwrds confs)).
  { apply (Forall2_zip_rows (fun k kw => np_getitem mapping k = Ok kw)
                            (fun k c => np_getitem confidences k = Ok c));
      assumption. }
  exists part. split; [reflexivity|]. split; [|split; [exact HF|]].
  - apply Forall2_length in HF. rewrite <- HF. unfold py_last.
    rewrite length_drop. lia.
  - intros row Hrow. apply list_elem_of_lookup_1 in Hrow as [i Hi].
    destruct (Forall2_lookup_r _ _ _ _ _ HF Hi) as [k [_ [Hl Hc]]].
    apply np_getitem_Ok_iff in Hl as [_ Hl], Hc as [_ Hc].
    apply list_elem_of_lookup_2 in Hl, Hc. split; assumption.
Qed.

(** A failure that comes after the prediction leaves the predicted word on
    the page and no chart: when [np.argpartition] raises (as it does for fewer
    than ten confidences), and when one of the ten indices it keeps is not an
    index of [mapping]. *)
Theorem create_visualization_word_without_chart
    (file : list Z) (predicted_keyword : string) (confidences : list flt) :
  CNN_predict zero flt_ltb librosa_load librosa_mfcc model_predict file
    = Ok (predicted_keyword, confidences) ->
  (forall e,
     np_argpartition confidences (- 10) = Raise e ->
     create_visualization zero flt_ltb librosa_load librosa_mfcc model_predict
         np_argpartition file
     = ([st_markdown (heard_text predicted_keyword)], Raise e)) /\
  (forall part k,
     np_argpartition confidences (- 10) = Ok part ->
     k ∈ py_last 10 part ->
     ~ (- Z.of_nat (length mapping) <= k < Z.of_nat (length mapping)) ->
     create_visualization zero flt_ltb librosa_load librosa_mfcc model_predict
         np_argpartition file
     = ([st_markdown (heard_text predicted_keyword)], Raise IndexError)).
Proof.
  intros Hpred. split.
  - intros e He. unfold create_visualization. rewrite Hpred.
    cbn [st_bind st_lift st_emit app]. unfold top_confidences. cbv zeta.
    change (Z.opp 10) with (-10). rewrite He. reflexivity.
  - intros part k Hpart Hk Hout. unfold create_visualization. rewrite Hpred.
    cbn [st_bind st_lift st_emit app]. unfold top_confidences. cbv zeta.
    change (Z.opp 10) with (-10). change (Z.to_nat 10) with 10%nat.
    rewrite Hpart. cbn [rbind].
    assert (Htake : np_take mapping (py_last 10 part) = Raise IndexError).
    { apply mapM_result_raise.
      - intros x e' _ Hx. apply np_getitem_raise in Hx. exact Hx.
      - exists k. split; [apply list_elem_of_In; exact Hk|].
        apply np_getitem_Raise_iff. split; [reflexivity|exact Hout]. }
    rewrite Htake. reflexivity.
Qed.

(** A recording that reconstructs to some bytes is handled exactly as an
    upload of those bytes: same outcome, same rendering after the section
    title, with only the spinner in between. *)
Theorem output_branch_recording_as_upload
    (arr : SparseSampleMap) (bytes : list Z) (recorded_file : option SparseSampleMap) :
  retrieve_recording arr = Ok bytes ->
  output_branch zero flt_ltb librosa_load librosa_mfcc model_predict np_argpartition
      None (Some arr)
    = ([st_markdown "## Output"; st_spinner "retrieving audio-recording..."]
       ++ fst (create_visualization zero flt_ltb librosa_load librosa_mfcc
                 model_predict np_argpartition bytes),
       snd (create_visualization zero flt_ltb librosa_load librosa_mfcc
              model_predict np_argpartition bytes)) /\
  output_branch zero flt_ltb librosa_load librosa_mfcc model_predict np_argpartition
      (Some bytes) recorded_file
    = ([st_markdown "## Output"]
       ++ fst (create_visualization zero flt_ltb librosa_load librosa_mfcc
                 model_predict np_argpartition bytes),
       snd (create_visualization zero flt_ltb librosa_load librosa_mfcc
              model_predict np_argpartition bytes)).
Proof.
  intros Hrec. unfold output_branch. rewrite Hrec.
  cbn [st_bind st_emit st_lift].
  destruct (create_visualization zero flt_ltb librosa_load librosa_mfcc
              model_predict np_argpartition bytes) as [log [[]|e]];
    split; reflexivity.
Qed.

(** *** The array given to the model *)

Section ModelInput.

Hypothesis librosa_mfcc_shape :
  forall (y : list flt) (sr n_mfcc n_fft hop_length : Z),
    nd_shape (librosa_mfcc y sr n_mfcc n_fft hop_length)
    = [Z.to_nat n_mfcc; Z.to_nat (stft_frame_count (Z.of_nat (length y)) n_fft hop_length)].

Hypothesis librosa_mfcc_wf :
  forall (y : list flt) (sr n_mfcc n_fft hop_length : Z),
    nd_wf (librosa_mfcc y sr n_mfcc n_fft hop_length).

(** For every buffer that decodes, the model is called on a well-formed
    array of shape (1, 44, 13, 1) holding 572 numbers. *)
Theorem CNN_predict_model_input_well_formed
    (file : list Z) (signal : list flt) (sr : Z) :
  librosa_load file = Ok (signal, sr) ->
  exists X : ndarray flt,
    CNN_predict zero flt_ltb librosa_load librosa_mfcc model_predict file
      = (let* predictions := model_predict X in
         let* predicted_index := np_argmax flt_ltb predictions in
         let* predicted_keyword := np_getitem mapping (Z.of_nat predicted_index) in
         Ok (predicted_keyword, nd_flatten predictions)) /\
    nd_shape X = [1; 44; 13; 1]%nat /\
    nd_wf X /\
    length (nd_data X) = 572%nat.
Proof.
  intros Hload.
  set (F := librosa_mfcc (fix_signal_length zero signal) sr 13 2048 512).
  assert (HF : nd_shape F = [13; 44]%nat).
  { unfold F. rewrite librosa_mfcc_shape, fix_signal_length_length. reflexivity. }
  assert (HT : nd_shape (nd_T F) = [44; 13]%nat).
  { unfold nd_T. cbn [nd_shape]. rewrite HF. reflexivity. }
  assert (Hwf : nd_wf (nd_newaxis_ends (nd_T F))).
  { apply nd_newaxis_ends_wf. apply (nd_T_wf_matrix F 13 44 HF).
    apply librosa_mfcc_wf. }
  assert (HX : nd_shape (nd_newaxis_ends (nd_T F)) = [1; 44; 13; 1]%nat).
  { unfold nd_newaxis_ends. cbn [nd_shape]. rewrite HT. reflexivity. }
  exists (nd_newaxis_ends (nd_T F)). split; [|split; [exact HX|split; [exact Hwf|]]].
  - unfold CNN_predict, preprocess. rewrite Hload. reflexivity.
  - unfold nd_wf in Hwf. rewrite Hwf, HX. reflexivity.
Qed.

End ModelInput.

End Outcomes.

(** ** Further statements on the concrete instance *)

Lemma prediction_ignores_samples_after_window_witness :
  CNN_predict 0 Z.ltb Demo.load Demo.mfcc Demo.model
    (replicate (Z.to_nat 22050) 1 ++ [2])
  = CNN_predict 0 Z.ltb Demo.load Demo.mfcc Demo.model
      (replicate (Z.to_nat 22050) 1 ++ [3; 4]) /\
  create_visualization 0 Z.ltb Demo.load Demo.mfcc Demo.model Demo.argpartition
    (replicate (Z.to_nat 22050) 1 ++ [2])
  = create_visualization 0 Z.ltb Demo.load Demo.mfcc Demo.model Demo.argpartition
      (replicate (Z.to_nat 22050) 1 ++ [3; 4]).
Proof.
  assert (Htake : take (Z.to_nat SAMPLES_TO_CONSIDER) (replicate (Z.to_nat 22050) 1 ++ [2])
                  = take (Z.to_nat SAMPLES_TO_CONSIDER)
                      (replicate (Z.to_nat 22050) 1 ++ [3; 4])).
  { unfold SAMPLES_TO_CONSIDER.
    rewrite !take_app_length' by (rewrite length_replicate; reflexivity).
    reflexivity. }
  destruct (@prediction_ignores_samples_after_window Z 0 Z.ltb Demo.load Demo.mfcc
              Demo.model Demo.argpartition
              (replicate (Z.to_nat 22050) 1 ++ [2])
              (replicate (Z.to_nat 22050) 1 ++ [3; 4])
              (replicate (Z.to_nat 22050) 1 ++ [2])
              (replicate (Z.to_nat 22050) 1 ++ [3; 4])
              22050 eq_refl eq_refl Htake) as [_ [Hcnn Hvis]].
  split; assumption.
Defined.

Lemma prediction_ignores_trailing_zeros_witness :
  CNN_predict 0 Z.ltb Demo.load Demo.mfcc Demo.model [1; 2; 3]
  = CNN_predict 0 Z.ltb Demo.load Demo.mfcc Demo.model [1; 2; 3; 0; 0] /\
  create_visualization 0 Z.ltb Demo.load Demo.mfcc Demo.model Demo.argpartition
    [1; 2; 3]
  = create_visualization 0 Z.ltb Demo.load Demo.mfcc Demo.model Demo.argpartition
      [1; 2; 3; 0; 0].
Proof.
  destruct (@prediction_ignores_trailing_zeros Z 0 Z.ltb Demo.load Demo.mfcc
              Demo.model Demo.argpartition
              [1; 2; 3] [1; 2; 3; 0; 0] [1; 2; 3] 2 22050 eq_refl eq_refl)
    as [_ [Hcnn Hvis]].
  split; assumption.
Defined.

Lemma CNN_predict_outcomes_witness :
  exists kw, kw ∈ mapping /\
    CNN_predict 0 Z.ltb Demo.load Demo.mfcc Demo.model [1; 2; 3]
    = Ok (kw, seqZ 0 35).
Proof.
  destruct (@CNN_predict_outcomes Z 0 Z.ltb Demo.load Demo.mfcc Demo.model
              [1; 2; 3]
              (nd_T (Demo.mfcc (fix_signal_length 0 [1; 2; 3]) 22050 13 2048 512))
              (mk_ndarray [1; 35]%nat (seqZ 0 35)))
    as [_ [_ Hlabel]].
  - apply (demo_preprocess 1 [2; 3]).
  - apply demo_model. apply (demo_preprocess 1 [2; 3]).
  - apply Hlabel. cbn [nd_data]. rewrite length_seqZ.
    change (length mapping) with 35%nat. lia.
Defined.

Lemma top_confidences_rows_by_index_witness :
  exists part : list Z,
    Demo.argpartition [5; 9; 2; 7; 1; 8; 3; 6; 4; 0; 11; 10] (- 10) = Ok part /\
    length [("cat", 2); ("bed", 3); ("go", 4); ("right", 5); ("happy", 6);
            ("tree", 7); ("learn", 8); ("eight", 9); ("wow", 10); ("no", 11)]%string
    = Nat.min 10 (length part) /\
    Forall2 (fun k row =>
               np_getitem mapping k = Ok (fst row) /\
               np_getitem [5; 9; 2; 7; 1; 8; 3; 6; 4; 0; 11; 10] k = Ok (snd row))
            (py_last 10 part)
            [("cat", 2); ("bed", 3); ("go", 4); ("right", 5); ("happy", 6);
             ("tree", 7); ("learn", 8); ("eight", 9); ("wow", 10); ("no", 11)]%string /\
    (forall row,
       row ∈ [("cat", 2); ("bed", 3); ("go", 4); ("right", 5); ("happy", 6);
              ("tree", 7); ("learn", 8); ("eight", 9); ("wow", 10); ("no", 11)]%string ->
       fst row ∈ mapping /\
       snd row ∈ [5; 9; 2; 7; 1; 8; 3; 6; 4; 0; 11; 10]).
Proof.
  apply (@top_confidences_rows_by_index Z Demo.argpartition
           [5; 9; 2; 7; 1; 8; 3; 6; 4; 0; 11; 10]).
  reflexivity.
Defined.

Lemma create_visualization_word_without_chart_witness :
  create_visualization 0 Z.ltb Demo.load Demo.mfcc
    (fun _ => Ok (mk_ndarray [1; 3]%nat [5; 9; 2])) Demo.argpartition [1; 2; 3]
  = ([st_markdown (heard_text "eight")], Raise ValueError).
Proof.
  destruct (@create_visualization_word_without_chart Z 0 Z.ltb Demo.load Demo.mfcc
              (fun _ => Ok (mk_ndarray [1; 3]%nat [5; 9; 2])) Demo.argpartition
              [1; 2; 3] "eight"%string [5; 9; 2]) as [Hraise _].
  - unfold CNN_predict. rewrite (proj1 (demo_preprocess 1 [2; 3])). reflexivity.
  - apply Hraise. reflexivity.
Defined.

Lemma output_branch_recording_as_upload_witness :
  output_branch 0 Z.ltb Demo.load Demo.mfcc Demo.model Demo.argpartition
      None (Some [(0, 10); (1, 20); (2, 30)])
    = ([st_markdown "## Output"; st_spinner "retrieving audio-recording..."]
       ++ fst (create_visualization 0 Z.ltb Demo.load Demo.mfcc Demo.model
                 Demo.argpartition [10; 20; 30]),
       snd (create_visualization 0 Z.ltb Demo.load Demo.mfcc Demo.model
              Demo.argpartition [10; 20; 30])) /\
  output_branch 0 Z.ltb Demo.load Demo.mfcc Demo.model Demo.argpartition
      (Some [10; 20; 30]) None
    = ([st_markdown "## Output"]
       ++ fst (create_visualization 0 Z.ltb Demo.load Demo.mfcc Demo.model
                 Demo.argpartition [10; 20; 30]),
       snd (create_visualization 0 Z.ltb Demo.load Demo.mfcc Demo.model
              Demo.argpartition [10; 20; 30])).
Proof.
  apply (@output_branch_recording_as_upload Z 0 Z.ltb Demo.load Demo.mfcc Demo.model
           Demo.argpartition [(0, 10); (1, 20); (2, 30)] [10; 20; 30] None).
  reflexivity.
Defined.

Lemma CNN_predict_model_input_well_formed_witness :
  exists X : ndarray Z,
    CNN_predict 0 Z.ltb Demo.load Demo.mfcc Demo.model [1; 2; 3]
      = (let* predictions := Demo.model X in
         let* predicted_index := np_argmax Z.ltb predictions in
         let* predicted_keyword := np_getitem mapping (Z.of_nat predicted_index) in
         Ok (predicted_keyword, nd_flatten predictions)) /\
    nd_shape X = [1; 44; 13; 1]%nat /\
    nd_wf X /\
    length (nd_data X) = 572%nat.
Proof.
  apply (@CNN_predict_model_input_well_formed Z 0 Z.ltb Demo.load Demo.mfcc
           Demo.model demo_mfcc_shape demo_mfcc_wf [1; 2; 3] [1; 2; 3] 22050).
  reflexivity.
Defined.

(** ** Sample Reconstructor: when the bytes do come out in index order *)

Lemma insert_by_index_perm (kv : Z * Z) (l : list (Z * Z)) :
  insert_by_index kv l ≡ₚ kv :: l.
Proof.
  induction l as [|kv' l IH]; [reflexivity|].
  cbn [insert_by_index]. destruct (fst kv <=? fst kv'); [reflexivity|].
  rewrite IH. apply perm_swap.
Qed.

Lemma sort_by_index_perm (arr : list (Z * Z)) :
  foldr insert_by_index [] arr ≡ₚ arr.
Proof.
  induction arr as [|kv arr IH]; [reflexivity|].
  cbn [foldr]. rewrite insert_by_index_perm, IH. reflexivity.
Qed.

Lemma insert_by_index_sorted (kv : Z * Z) (l : list (Z * Z)) :
  StronglySorted (fun a b => fst a <= fst b) l ->
  StronglySorted (fun a b => fst a <= fst b) (insert_by_index kv l).
Proof.
  induction 1 as [|kv' l Hs IH Hall]; cbn [insert_by_index].
  - repeat constructor.
  - destruct (Z.leb_spec (fst kv) (fst kv')) as [Hle|Hgt].
    + constructor; [constructor; assumption|].
      constructor; [exact Hle|].
      apply Forall_forall. intros x Hx.
      rewrite Forall_forall in Hall. specialize (Hall x Hx). lia.
    + constructor; [exact IH|].
      rewrite insert_by_index_perm. constructor; [lia|exact Hall].
Qed.

Lemma sort_by_index_sorted (arr : list (Z * Z)) :
  StronglySorted (fun a b => fst a <= fst b) (foldr insert_by_index [] arr).
Proof.
  induction arr as [|kv arr IH]; [constructor|].
  cbn [foldr]. apply insert_by_index_sorted. exact IH.
Qed.

Lemma seqZ_sorted (k : nat) (m : Z) : StronglySorted Z.le (seqZ m (Z.of_nat k)).
Proof.
  revert m. induction k as [|k IH]; intros m; [constructor|].
  rewrite seqZ_cons by lia.
  replace (Z.pred (Z.of_nat (S k))) with (Z.of_nat k) by lia.
  constructor; [apply IH|].
  apply Forall_forall. intros x Hx. apply elem_of_seqZ in Hx. lia.
Qed.

(** When the indices are 0, ..., n-1 and the insertion order is its own
    inverse (the index inserted at position [i] is [k] exactly when the index
    inserted at position [k] is [i]: the identity, or any set of swaps), the
    bytes are the values in ascending index order. *)
Theorem retrieve_recording_involution_in_order (arr : SparseSampleMap) :
  arr <> [] ->
  map fst arr ≡ₚ seqZ 0 (Z.of_nat (length arr)) ->
  (forall (i : nat) (k : Z),
     map fst arr !! i = Some k -> map fst arr !! Z.to_nat k = Some (Z.of_nat i)) ->
  (forall v, v ∈ map snd arr -> 0 <= v < 256) ->
  retrieve_recording arr = Ok (values_by_ascending_index arr).
Proof.
  intros Hne Hperm Hinv Hvals.
  assert (Hin : forall k, k ∈ map fst arr -> 0 <= k < Z.of_nat (length arr)).
  { intros k Hk. rewrite Hperm in Hk. apply elem_of_seqZ in Hk. lia. }
  destruct (retrieve_recording_positions arr Hne) as [bytes [Hok [Hlen [_ Hpos]]]];
    [intros k Hk; apply Hin in Hk; lia|exact Hvals|].
  rewrite Hok. f_equal.
  unfold values_by_ascending_index.
  set (S := foldr insert_by_index [] arr).
  assert (HSperm : S ≡ₚ arr) by apply sort_by_index_perm.
  assert (HSlen : length S = length arr) by (apply Permutation_length; exact HSperm).
  assert (Hkeys : fst <$> S = seqZ 0 (Z.of_nat (length arr))).
  { apply (StronglySorted_unique Z.le).
    - apply (StronglySorted_fmap fst (fun a b => fst a <= fst b) Z.le);
        [auto|apply sort_by_index_sorted].
    - apply seqZ_sorted.
    - rewrite HSperm. exact Hperm. }
  change (map snd S) with (snd <$> S).
  apply list_eq. intros j. rewrite list_lookup_fmap.
  destruct (S !! j) as [[k v]|] eqn:HSj.
  - assert (Hj : (j < length arr)%nat) by (apply lookup_lt_Some in HSj; lia).
    assert (Hk : k = Z.of_nat j).
    { assert (Hkj : (fst <$> S) !! j = Some k) by (rewrite list_lookup_fmap, HSj; reflexivity).
      rewrite Hkeys in Hkj. apply lookup_seqZ in Hkj. lia. }
    subst k.
    assert (Harr : (Z.of_nat j, v) ∈ arr).
    { rewrite <- HSperm. apply list_elem_of_lookup_2 with j. exact HSj. }
    apply list_elem_of_lookup_1 in Harr as [p Hp].
    assert (Hkp : map fst arr !! p = Some (Z.of_nat j)).
    { change (map fst arr) with (fst <$> arr). rewrite list_lookup_fmap, Hp. reflexivity. }
    assert (Hvp : map snd arr !! p = Some v).
    { change (map snd arr) with (snd <$> arr). rewrite list_lookup_fmap, Hp. reflexivity. }
    pose proof (Hinv p (Z.of_nat j) Hkp) as Hjp. rewrite Nat2Z.id in Hjp.
    rewrite (Hpos j (Z.of_nat p) Hjp).
    assert (Hplt : (p < length arr)%nat) by (apply lookup_lt_Some in Hp; exact Hp).
    rewrite Z.mod_small by lia. rewrite Nat2Z.id, Hvp. reflexivity.
  - cbn. apply lookup_ge_None. apply lookup_ge_None in HSj. lia.
Qed.

Lemma retrieve_recording_involution_in_order_witness :
  retrieve_recording [(1, 3); (0, 1); (2, 5)]
  = Ok (values_by_ascending_index [(1, 3); (0, 1); (2, 5)]).
Proof.
  apply (retrieve_recording_involution_in_order [(1, 3); (0, 1); (2, 5)]).
  - discriminate.
  - cbn. change (seqZ 0 3) with [0; 1; 2]. apply perm_swap.
  - intros [|[|[|i]]] k Hk; cbn in Hk; try discriminate;
      injection Hk as <-; reflexivity.
  - intros v Hv. cbn in Hv.
    repeat (apply elem_of_cons in Hv as [->|Hv]; [lia|]).
    apply elem_of_nil in Hv. destruct Hv.
Defined.

(** ** The predicted word and the chart *)

Section WordAndChart.

Context {flt : Type}.
Variable zero : flt.
Variable flt_ltb : flt -> flt -> bool.
Variable librosa_load : list Z -> result (list flt * Z).
Variable librosa_mfcc : list flt -> Z -> Z -> Z -> Z -> ndarray flt.
Variable model_predict : ndarray flt -> result (ndarray flt).
Variable np_argpartition : list flt -> Z -> result (list Z).

Hypothesis flt_ltb_irrefl : forall x, flt_ltb x x = false.
Hypothesis flt_ltb_trans :
  forall x y z, flt_ltb x y = true -> flt_ltb y z = true -> flt_ltb x z = true.
Hypothesis flt_ltb_negtrans :
  forall x y z, flt_ltb x y = false -> flt_ltb y z = false -> flt_ltb x z = false.

Lemma CNN_predict_Ok_inv (file : list Z) (kw : string) (confidences : list flt) :
  CNN_predict zero flt_ltb librosa_load librosa_mfcc model_predict file
    = Ok (kw, confidences) ->
  exists (predictions : ndarray flt) (i : nat),
    nd_data predictions = confidences /\
    np_argmax flt_ltb predictions = Ok i /\
    mapping !! i = Some kw.
Proof.
  unfold CNN_predict. intros H.
  destruct (preprocess zero librosa_load librosa_mfcc file 13 2048 512) as [M|e];
    cbn [rbind] in H; [|discriminate].
  destruct (model_predict (nd_newaxis_ends M)) as [predictions|e];
    cbn [rbind] in H; [|discriminate].
  destruct (np_argmax flt_ltb predictions) as [i|e] eqn:Harg;
    cbn [rbind] in H; [|discriminate].
  destruct (np_getitem mapping (Z.of_nat i)) as [kw'|e] eqn:Hget;
    cbn [rbind] in H; [|discriminate].
  injection H as -> <-.
  exists predictions, i. split; [reflexivity|]. split; [exact Harg|].
  apply np_getitem_Ok_iff in Hget as [Hi Hget].
  rewrite Z.mod_small, Nat2Z.id in Hget by lia. exact Hget.
Qed.

(** The chart agrees with the predicted word.  For 35 confidences and a
    result of [np.argpartition] that meets its contract, the predicted word's
    confidence is the greatest, some row of the chart is not below it, and
    when every other confidence is strictly smaller the row of the predicted
    word itself is in the chart. *)
Theorem predicted_word_in_chart
    (file : list Z) (predicted_keyword : string) (confidences : list flt)
    (part : list Z) :
  CNN_predict zero flt_ltb librosa_load librosa_mfcc model_predict file
    = Ok (predicted_keyword, confidences) ->
  length confidences = length mapping ->
  np_argpartition confidences (- 10) = Ok part ->
  partitioned_at flt_ltb confidences (length confidences - 10) part ->
  exists (rows : list (string * flt)) (i : nat) (m : flt),
    create_visualization zero flt_ltb librosa_load librosa_mfcc model_predict
        np_argpartition file
      = ([st_markdown (heard_text predicted_keyword);
          st_write (mk_Chart rows "confidence" "keyword" "-x")], Ok tt) /\
    mapping !! i = Some predicted_keyword /\
    confidences !! i = Some m /\
    (forall j x, confidences !! j = Some x -> flt_ltb m x = false) /\
    (exists row, row ∈ rows /\ flt_ltb (snd row) m = false) /\
    ((forall j x, j <> i -> confidences !! j = Some x -> flt_ltb x m = true) ->
     (predicted_keyword, m) ∈ rows).
Proof.
  intros Hpred Hlen Hpart Hord.
  destruct (CNN_predict_Ok_inv file predicted_keyword confidences Hpred)
    as [predictions [i [Hdata [Harg Hkw]]]].
  destruct (np_argmax_spec flt_ltb flt_ltb_irrefl flt_ltb_trans flt_ltb_negtrans
              predictions) as [i' [m [Harg' [Hm [Hmax _]]]]].
  { rewrite Hdata. intros Hnil. rewrite Hnil in Hlen. discriminate. }
  rewrite Harg in Harg'. injection Harg' as <-. rewrite Hdata in Hm, Hmax.
  destruct (top_confidences_rows flt_ltb np_argpartition flt_ltb_irrefl
              flt_ltb_negtrans confidences part Hlen Hpart Hord)
    as [rows [Hrows [Hrlen [_ [HF [Hnn [Hsel _]]]]]]].
  assert (Hword : Z.of_nat i ∈ py_last 10 part -> (predicted_keyword, m) ∈ rows).
  { intros Hi. apply list_elem_of_lookup_1 in Hi as [t Ht].
    destruct (Forall2_lookup_l _ _ _ _ _ HF Ht) as [[kw c] [Hrow [Hl Hc]]].
    rewrite Nat2Z.id in Hl, Hc. cbn [fst snd] in Hl, Hc.
    rewrite Hkw in Hl. rewrite Hm in Hc. injection Hl as <-. injection Hc as <-.
    apply list_elem_of_lookup_2 in Hrow. exact Hrow. }
  assert (Hfirst : Z.of_nat i ∉ py_last 10 part ->
            exists k row, k ∈ py_last 10 part /\ row ∈ rows /\
                          confidences !! Z.to_nat k = Some (snd row) /\
                          flt_ltb (snd row) m = false).
  { intros Hout.
    destruct (lookup_lt_is_Some_2 rows 0) as [row Hrow]; [lia|].
    destruct (Forall2_lookup_r _ _ _ _ _ HF Hrow) as [k [Hk [_ Hc]]].
    apply list_elem_of_lookup_2 in Hk, Hrow.
    exists k, row. repeat split; try assumption.
    apply (Hsel k (Z.of_nat i)); try assumption; [lia|].
    rewrite Nat2Z.id. exact Hm. }
  exists rows, i, m. split; [|split; [exact Hkw|split; [exact Hm|split; [exact Hmax|split]]]].
  - unfold create_visualization. rewrite Hpred.
    cbn [st_bind st_lift st_emit app]. rewrite Hrows. reflexivity.
  - destruct (decide (Z.of_nat i ∈ py_last 10 part)) as [Hi|Hout].
    + exists (predicted_keyword, m). split; [apply Hword; exact Hi|].
      apply flt_ltb_irrefl.
    + destruct (Hfirst Hout) as [k [row [_ [Hrow [_ Hge]]]]].
      exists row. split; assumption.
  - intros Huniq.
    destruct (decide (Z.of_nat i ∈ py_last 10 part)) as [Hi|Hout];
      [apply Hword; exact Hi|].
    destruct (Hfirst Hout) as [k [row [Hk [_ [Hc Hge]]]]].
    assert (Hne : Z.to_nat k <> i).
    { intros <-. apply Hout. rewrite Z2Nat.id by (apply Hnn; exact Hk). exact Hk. }
    rewrite (Huniq (Z.to_nat k) (snd row) Hne Hc) in Hge. discriminate.
Qed.

End WordAndChart.

Lemma predicted_word_in_chart_witness :
  exists (rows : list (string * Z)) (i : nat) (m : Z),
    create_visualization 0 Z.ltb Demo.load Demo.mfcc Demo.model Demo.argpartition
        [1; 2; 3]
      = ([st_markdown (heard_text "four");
          st_write (mk_Chart rows "confidence" "keyword" "-x")], Ok tt) /\
    mapping !! i = Some "four"%string /\
    seqZ 0 35 !! i = Some m /\
    (forall j x, seqZ 0 35 !! j = Some x -> (m <? x) = false) /\
    (exists row, row ∈ rows /\ (snd row <? m) = false) /\
    ((forall j x, j <> i -> seqZ 0 35 !! j = Some x -> (x <? m) = true) ->
     ("four"%string, m) ∈ rows).
Proof.
  apply (@predicted_word_in_chart Z 0 Z.ltb Demo.load Demo.mfcc Demo.model
           Demo.argpartition Z.ltb_irrefl Z_ltb_trans Z_ltb_negtrans
           [1; 2; 3] "four"%string (seqZ 0 35) (seqZ 0 35)).
  - apply demo_CNN_predict.
  - reflexivity.
  - reflexivity.
  - apply (partitioned_at_ascending 35 25).
Defined.

(** ** Sample Reconstructor: the conversion of the indices *)

Lemma np_int64_Ok_iff (k k' : Z) :
  np_int64 k = Ok k' <-> k' = k /\ - INT64_BOUND <= k < INT64_BOUND.
Proof.
  unfold np_int64.
  destruct (Z.leb_spec (- INT64_BOUND) k); destruct (Z.ltb_spec k INT64_BOUND);
    cbn [andb]; try (split; [discriminate|intros [_ ?]; lia]).
  split; [intros [= <-]; split; [reflexivity|lia]|intros [-> _]; reflexivity].
Qed.

Lemma np_int64_Raise_iff (k : Z) (e : exn) :
  np_int64 k = Raise e <-> e = OverflowError /\ ~ (- INT64_BOUND <= k < INT64_BOUND).
Proof.
  unfold np_int64.
  destruct (Z.leb_spec (- INT64_BOUND) k); destruct (Z.ltb_spec k INT64_BOUND);
    cbn [andb];
    try (split; [intros [= <-]; split; [reflexivity|lia]|intros [-> _]; reflexivity]).
  split; [discriminate|intros [_ ?]; lia].
Qed.

(** The conversion either keeps every index, all of them fitting, or raises
    [OverflowError] for one that does not fit. *)
Lemma np_array_int_cases (ind : list Z) :
  ((forall k, k ∈ ind -> - INT64_BOUND <= k < INT64_BOUND) /\
   np_array_int ind = Ok ind) \/
  ((exists k, k ∈ ind /\ ~ (- INT64_BOUND <= k < INT64_BOUND)) /\
   np_array_int ind = Raise OverflowError).
Proof.
  unfold np_array_int.
  destruct (mapM_result np_int64 ind) as [ind'|e] eqn:H.
  - left. pose proof (mapM_result_Ok_inv _ _ _ H) as HF.
    assert (Hfit : forall k, k ∈ ind -> - INT64_BOUND <= k < INT64_BOUND).
    { intros k Hk. apply list_elem_of_lookup_1 in Hk as [i Hi].
      destruct (Forall2_lookup_l _ _ _ _ _ HF Hi) as [k' [_ Hk']].
      apply np_int64_Ok_iff in Hk' as [_ Hk']. exact Hk'. }
    split; [exact Hfit|]. f_equal. symmetry.
    apply list_eq. intros i.
    destruct (ind !! i) as [k|] eqn:Hi.
    + destruct (Forall2_lookup_l _ _ _ _ _ HF Hi) as [k' [Hi' Hk']].
      apply np_int64_Ok_iff in Hk' as [-> _]. symmetry. exact Hi'.
    + apply Forall2_length in HF. apply lookup_ge_None in Hi.
      symmetry. apply lookup_ge_None. lia.
  - right. apply mapM_result_Raise_inv in H as [k [Hk Hke]].
    apply np_int64_Raise_iff in Hke as [-> Hout].
    split; [|reflexivity]. exists k. split; assumption.
Qed.

Lemma recording_branch_int64 (arr : SparseSampleMap) :
  (forall k, k ∈ map fst arr -> - INT64_BOUND <= k < INT64_BOUND) ->
  recording_branch arr = retrieve_recording arr.
Proof.
  intros Hfit. destruct arr as [|kv arr]; [reflexivity|].
  unfold recording_branch, retrieve_recording, unzip_items. cbn [rbind].
  destruct (np_array_int_cases (map fst (kv :: arr))) as [[_ Hok]|[[k [Hk Hout]] _]].
  - rewrite Hok. reflexivity.
  - exfalso. apply Hout, Hfit, Hk.
Qed.

Lemma recording_branch_overflow (arr : SparseSampleMap) (k : Z) :
  arr <> [] ->
  k ∈ map fst arr ->
  ~ (- INT64_BOUND <= k < INT64_BOUND) ->
  recording_branch arr = Raise OverflowError.
Proof.
  intros Hne Hk Hout. destruct arr as [|kv arr]; [congruence|].
  unfold recording_branch, unzip_items. cbn [rbind].
  destruct (np_array_int_cases (map fst (kv :: arr))) as [[Hfit _]|[_ Hraise]].
  - exfalso. apply Hout, Hfit, Hk.
  - rewrite Hraise. reflexivity.
Qed.

(** C10, as the code has it.  A non-empty dictionary whose indices all fit in
    a signed 64-bit integer and that holds an index at least its number of
    entries raises [IndexError] in [val[ind]]: no byte stream comes out,
    neither zero-filled nor compacted. *)
Theorem recording_branch_gap_index_error (arr : SparseSampleMap) (k : Z) :
  arr <> [] ->
  (forall k', k' ∈ map fst arr -> - INT64_BOUND <= k' < INT64_BOUND) ->
  k ∈ map fst arr ->
  Z.of_nat (length arr) <= k ->
  recording_branch arr = Raise IndexError /\
  forall bytes, recording_branch arr <> Ok bytes.
Proof.
  intros Hne Hfit Hin Hk.
  assert (H : recording_branch arr = Raise IndexError).
  { rewrite (recording_branch_int64 arr Hfit).
    apply (retrieve_recording_errors arr). split; [exact Hne|].
    exists k. split; [exact Hin|]. lia. }
  split; [exact H|]. intros bytes. rewrite H. discriminate.
Qed.

Lemma recording_branch_gap_index_error_witness :
  recording_branch [(0, 7); (5, 9)] = Raise IndexError /\
  forall bytes, recording_branch [(0, 7); (5, 9)] <> Ok bytes.
Proof.
  apply (recording_branch_gap_index_error [(0, 7); (5, 9)] 5).
  - discriminate.
  - intros k Hk. cbn in Hk. unfold INT64_BOUND.
    repeat (apply elem_of_cons in Hk as [->|Hk]; [lia|]).
    apply elem_of_nil in Hk. destruct Hk.
  - cbn. right. left.
  - cbn. lia.
Defined.

(** C10 as stated fails.  The dictionary {2^63: 1} has one entry and an index
    that is at least 1, yet what it raises is the [OverflowError] of the
    conversion of line 149, before any indexing. *)
Lemma recording_branch_index_too_large :
  recording_branch [(9223372036854775808, 1)] = Raise OverflowError /\
  recording_branch [(9223372036854775808, 1)] <> Raise IndexError /\
  Z.of_nat (length [(9223372036854775808, 1)]) <= 9223372036854775808.
Proof. split; [reflexivity|split; [discriminate|cbn; lia]]. Qed.

(** Which exception the recording branch raises, and when: [ValueError] for
    the empty dictionary only; [OverflowError] when some index does not fit in
    a signed 64-bit integer, or when every index fits and lies in [-n, n) and
    a value that is read is not a byte; [IndexError] when every index fits and
    one is outside [-n, n), whatever the values; nothing else. *)
Theorem recording_branch_errors (arr : SparseSampleMap) :
  (recording_branch arr = Raise ValueError <-> arr = []) /\
  (recording_branch arr = Raise IndexError <->
     arr <> [] /\
     (forall k, k ∈ map fst arr -> - INT64_BOUND <= k < INT64_BOUND) /\
     exists k, k ∈ map fst arr /\
               ~ (- Z.of_nat (length arr) <= k < Z.of_nat (length arr))) /\
  (recording_branch arr = Raise OverflowError <->
     arr <> [] /\
     ((exists k, k ∈ map fst arr /\ ~ (- INT64_BOUND <= k < INT64_BOUND)) \/
      ((forall k, k ∈ map fst arr -> - INT64_BOUND <= k < INT64_BOUND) /\
       (forall k, k ∈ map fst arr ->
                  - Z.of_nat (length arr) <= k < Z.of_nat (length arr)) /\
       exists k v, k ∈ map fst arr /\
                   map snd arr !! Z.to_nat (k mod Z.of_nat (length arr)) = Some v /\
                   ~ (0 <= v < 256)))) /\
  (forall origin, recording_branch arr <> Raise (ExternalError origin)).
Proof.
  destruct (retrieve_recording_errors arr) as [Hv [Hi [Ho He]]].
  destruct (np_array_int_cases (map fst arr)) as [[Hfit _]|[[k [Hk Hout]] _]].
  - rewrite (recording_branch_int64 arr Hfit).
    split; [exact Hv|]. split; [|split; [|exact He]].
    + rewrite Hi. split.
      * intros [Hne Hbad]. split; [exact Hne|]. split; [exact Hfit|exact Hbad].
      * intros [Hne [_ Hbad]]. split; assumption.
    + rewrite Ho. split.
      * intros [Hne [Hin Hbad]]. split; [exact Hne|]. right.
        split; [exact Hfit|]. split; assumption.
      * intros [Hne [[k [Hk Hout]]|[_ [Hin Hbad]]]].
        -- exfalso. apply Hout, Hfit, Hk.
        -- split; [exact Hne|]. split; assumption.
  - destruct (decide (arr = [])) as [->|Hne].
    { apply elem_of_nil in Hk. destruct Hk. }
    rewrite (recording_branch_overflow arr k Hne Hk Hout).
    split; [split; [discriminate|congruence]|].
    split; [split; [discriminate|]|].
    { intros [_ [Hfit _]]. exfalso. apply Hout, Hfit, Hk. }
    split; [|discriminate].
    split; [|reflexivity].
    intros _. split; [exact Hne|]. left. exists k. split; assumption.
Qed.
